(** * prawcore.sessions: the request pipeline of [Session]

    A shallow embedding of [src/prawcore/sessions.py]: the retry strategy
    [FiniteRetryStrategy], the status tables of [Session], the retry loop
    [Session._request_with_retries] together with [_make_request] and
    [_do_retry], the argument preparation of [Session.request], the
    constructor [Session.__init__] with the module function [session], and
    the header callback [Session._set_header_callback].

    Effects are modelled by a state-and-exception monad over a [world]:
    - the authorizer: its refresh capability, its access token, and its
      [is_valid] and [refresh] methods;
    - Python's [random] module, a fixed sequence of draws [w_random] and
      the number of draws made so far [w_rng];
    - the outcomes of the transmissions, one per attempt, in order
      ([w_outs]); the rate limiter and the requestor are outside this file,
      so each call of the rate limiter runs the header callback and then
      takes its outcome from this sequence;
    - the Python heap of dictionaries, so that [deepcopy] and in-place
      insertion are modelled with their aliasing;
    - a trace of the observable events (sleeps, attempts, token clearing,
      JSON decoding, retry warnings) and of the retry states consumed. *)

From Stdlib Require Import ZArith QArith Lqa String Sorting.Sorted.
From stdpp Require Import base gmap sets list strings sorting.

Open Scope Z_scope.

(** ** Data *)

(** Python values stored in the dictionaries handled by [Session.request]. *)
Inductive pyval :=
| PNone
| PInt (z : Z)
| PStr (s : string).

(** A Python [dict] with string keys. *)
Abbreviation dict := (gmap string pyval).

(** A reference to a dictionary on the Python heap. *)
Abbreviation loc := positive.

(** The original (transport-level) exception wrapped by prawcore's
    [RequestException]; the three classes of [Session.RETRY_EXCEPTIONS]
    and any other class, by name. *)
Inductive original_exception :=
| ChunkedEncodingError
| ConnectionError
| ReadTimeout
| OtherOriginal (name : string).

(** prawcore's [RequestException]: the wrapper raised by the requestor. *)
Record request_exception := RequestException {
  re_original : original_exception;
  re_message : string
}.

(** An HTTP response: its status code, its [content-length] header, and
    the outcome of [response.json()] ([None] when it raises [ValueError]). *)
Record response := Response {
  status_code : Z;
  content_length : option string;
  json_body : option string
}.

(** What one call of [self._rate_limiter.call(...)] in [_make_request] does. *)
Inductive outcome :=
| OResponse (r : response)
| ORequestException (e : request_exception)
| OOtherException (name : string).

(** The exception classes of [Session.STATUS_EXCEPTIONS].
    [AuthorizationErrorClass] stands for the class returned by
    [authorization_error_class(response)]. *)
Inductive status_exception :=
| ServerError
| BadRequest
| Conflict
| Redirect
| AuthorizationErrorClass
| SpecialError
| NotFound
| TooLarge
| UnavailableForLegalReasons.

(** Exceptions leaving the pipeline. [OutOfFuel] and [NoOutcome] are
    artefacts of the model (recursion bound, exhausted environment). *)
Inductive exn :=
| ERequestException (e : request_exception)
| EOtherException (name : string)
| EStatus (cls : status_exception) (r : response)
| EBadJSON (r : response)
| EAssertionError (status : Z)
| EAttributeError
| NoOutcome
| OutOfFuel.

(** Values returned by [_request_with_retries]. *)
Inductive pyret :=
| RNone
| RStr (s : string)
| RJson (j : string).

(** The cause named by the warning of [_do_retry]. *)
Inductive retry_cause :=
| CauseException (e : original_exception)
| CauseStatus (status : Z).

Inductive event :=
| ESleep (seconds : Q)               (** [time.sleep(sleep_seconds)] *)
| EConsume (before after : Z)       (** ghost: a retry state consumed *)
| EAttempt                          (** one call of the rate limiter *)
| EClearToken                       (** [authorizer._clear_access_token()] *)
| EDecode                           (** [response.json()] invoked *)
| EWarnRetry (c : retry_cause).      (** the warning of [_do_retry] *)

(** The authorizer held by the session. Its class [BaseAuthorizer] lives in
    [prawcore/auth.py], not under src/; its methods are modelled from the
    spec's AuthCredential, as functions carried by the object:
    [is_valid] answers [authorizer.is_valid()] from the current token and
    the events so far (the clock of the run), and [refresh] gives the token
    that [authorizer.refresh()] leaves. An exception raised by [refresh]
    inside the rate limiter's call is an outcome of that call. *)
Record authorizer := Authorizer {
  has_refresh : bool;               (** [hasattr(authorizer, "refresh")] *)
  access_token : option string;
  is_valid : option string -> list event -> bool;
  refresh : list event -> option string
}.

(** The same authorizer object holding another access token. *)
Definition set_token (A : authorizer) (t : option string) : authorizer :=
  Authorizer (has_refresh A) t (is_valid A) (refresh A).

Record world := World {
  w_auth : authorizer;
  w_random : nat -> Q;
  w_rng : nat;
  w_outs : list outcome;
  w_heap : gmap loc dict;
  w_trace : list event
}.

(** ** A state and exception monad *)

Definition M (A : Type) : Type := world -> (A + exn) * world.

Global Instance M_ret : MRet M := fun A a w => (inl a, w).
Global Instance M_bind : MBind M := fun A B f m w =>
  match m w with
  | (inl a, w') => f a w'
  | (inr e, w') => (inr e, w')
  end.

Definition raise {A} (e : exn) : M A := fun w => (inr e, w).

Definition emit (ev : event) : M unit := fun w =>
  (inl tt, World (w_auth w) (w_random w) (w_rng w) (w_outs w) (w_heap w)
                 (w_trace w ++ [ev])).

(** [random.random()] *)
Definition random : M Q := fun w =>
  (inl (w_random w (w_rng w)),
   World (w_auth w) (w_random w) (S (w_rng w)) (w_outs w) (w_heap w) (w_trace w)).

(** ** RetryStrategy / FiniteRetryStrategy *)

Record retry_strategy := FiniteRetryStrategy { retries : Z }.

Definition _consume_retry (s : retry_strategy) : retry_strategy :=
  FiniteRetryStrategy (retries s - 1).

Definition _should_retry_on_failure (s : retry_strategy) : bool :=
  retries s >? 0.

Definition _sleep_seconds (s : retry_strategy) : M (option Q) :=
  if retries s <? 3 then
    let base := if retries s =? 2 then 0 else 2 in
    u ← random;
    mret (Some (inject_Z base + 2 * u)%Q)
  else mret None.

(** [RetryStrategy.sleep]; [EConsume] records the consumed state. *)
Definition sleep (s : retry_strategy) : M (retry_strategy * bool) :=
  sleep_seconds ← _sleep_seconds s;
  (match sleep_seconds with
   | Some secs => emit (ESleep secs)
   | None => mret tt
   end);;
  let new_state := _consume_retry s in
  emit (EConsume (retries s) (retries new_state));;
  mret (new_state, _should_retry_on_failure new_state).

(** ** The status tables of [Session] *)

(** [Session.RETRY_EXCEPTIONS]: [isinstance(e, RETRY_EXCEPTIONS)]. *)
Definition is_retry_exception (e : original_exception) : bool :=
  match e with
  | ChunkedEncodingError | ConnectionError | ReadTimeout => true
  | OtherOriginal _ => false
  end.

(** [Session.RETRY_STATUSES]: 520, 522, bad_gateway, gateway_timeout,
    internal_server_error, service_unavailable. *)
Definition RETRY_STATUSES : list Z := [520; 522; 502; 504; 500; 503].

(** [Session.STATUS_EXCEPTIONS], as a lookup. *)
Definition STATUS_EXCEPTIONS (status : Z) : option status_exception :=
  if status =? 502 then Some ServerError
  else if status =? 400 then Some BadRequest
  else if status =? 409 then Some Conflict
  else if status =? 302 then Some Redirect
  else if status =? 403 then Some AuthorizationErrorClass
  else if status =? 504 then Some ServerError
  else if status =? 500 then Some ServerError
  else if status =? 415 then Some SpecialError
  else if status =? 404 then Some NotFound
  else if status =? 413 then Some TooLarge
  else if status =? 503 then Some ServerError
  else if status =? 401 then Some AuthorizationErrorClass
  else if status =? 451 then Some UnavailableForLegalReasons
  else if status =? 520 then Some ServerError
  else if status =? 522 then Some ServerError
  else None.

(** [Session.SUCCESS_STATUSES]: created, ok. *)
Definition SUCCESS_STATUSES : list Z := [201; 200].

Definition in_statuses (status : Z) (l : list Z) : bool :=
  existsb (Z.eqb status) l.

(** ** The pipeline *)

(** The transmitted body: the sorted item list of a form dictionary, or
    the caller's [data] as it was (bytes, file object, [None]). *)
Inductive body :=
| BForm (items : list (string * pyval))
| BRaw (v : pyval).

Record request_args := RequestArgs {
  ra_data : body;
  ra_files : pyval;
  ra_json : pyval;
  ra_method : string;
  ra_params : loc;
  ra_url : string
}.

(** [str(token)]: a missing token prints as ["None"]. *)
Definition token_str (t : option string) : string :=
  match t with Some s => s | None => "None" end.

(** [{"Authorization": "bearer {}".format(self._authorizer.access_token)}] *)
Definition bearer_header (A : authorizer) : gmap string string :=
  <["Authorization" := ("bearer " ++ token_str (access_token A))%string]> ∅.

(** [Session._set_header_callback]: an authorizer that is not valid and has
    [refresh] is refreshed, in place; the header carries the token the
    authorizer then holds. *)
Definition _set_header_callback : M (gmap string string) := fun w =>
  let A := w_auth w in
  if negb (is_valid A (access_token A) (w_trace w)) && has_refresh A then
    let A' := set_token A (refresh A (w_trace w)) in
    (inl (bearer_header A'),
     World A' (w_random w) (w_rng w) (w_outs w) (w_heap w) (w_trace w))
  else (inl (bearer_header A), w).

(** The transmission by the requestor: the next outcome of the environment. *)
Definition transmit (headers : gmap string string) : M outcome := fun w =>
  match w_outs w with
  | [] => (inr NoOutcome, w)
  | o :: rest =>
      (inl o, World (w_auth w) (w_random w) (w_rng w) rest (w_heap w)
                    (w_trace w ++ [EAttempt]))
  end.

(** One call of [self._rate_limiter.call(self._requestor.request,
    self._set_header_callback, ...)]. [RateLimiter.call] (in
    [prawcore/rate_limit.py], not under src/) calls the header callback
    immediately before the transmission and sends the headers it returns. *)
Definition rate_limiter_call (a : request_args) : M outcome :=
  headers ← _set_header_callback;
  transmit headers.

(** Modelled from the spec: [BaseAuthorizer._clear_access_token] of
    [prawcore/auth.py] (not under src/), the credential's [invalidate()]:
    the access token is dropped. *)
Definition _clear_access_token : M unit := fun w =>
  (inl tt, World (set_token (w_auth w) None) (w_random w)
                 (w_rng w) (w_outs w) (w_heap w) (w_trace w ++ [EClearToken])).

(** [hasattr(self._authorizer, "refresh")] *)
Definition authorizer_has_refresh : M bool := fun w =>
  (inl (has_refresh (w_auth w)), w).

Definition _make_request (a : request_args) (should_retry_on_failure : bool)
  : M (option response * option original_exception) :=
  o ← rate_limiter_call a;
  match o with
  | OResponse r => mret (Some r, None)
  | ORequestException e =>
      if negb should_retry_on_failure
         || negb (is_retry_exception (re_original e))
      then raise (ERequestException e)
      else mret (None, Some (re_original e))
  | OOtherException n => raise (EOtherException n)
  end.

(** The warning logged by [_do_retry] before it recurses. *)
Definition _do_retry_warning (resp : option response)
    (saved_exception : option original_exception) : M unit :=
  match saved_exception, resp with
  | Some e, _ => emit (EWarnRetry (CauseException e))
  | None, Some r => emit (EWarnRetry (CauseStatus (status_code r)))
  | None, None => raise EAttributeError
  end.

(** The arm of [_request_with_retries] after the retry test. *)
Definition handle_response (resp : option response) : M pyret :=
  match resp with
  | None => raise EAttributeError
  | Some r =>
      match STATUS_EXCEPTIONS (status_code r) with
      | Some cls => raise (EStatus cls r)
      | None =>
          if status_code r =? 204 then mret RNone
          else if negb (in_statuses (status_code r) SUCCESS_STATUSES)
          then raise (EAssertionError (status_code r))
          else if decide (content_length r = Some "0"%string)
          then mret (RStr "")
          else emit EDecode;;
               match json_body r with
               | Some j => mret (RJson j)
               | None => raise (EBadJSON r)
               end
      end
  end.

(** [_request_with_retries], with [_do_retry] inlined: the warning, then the
    recursive call on the new retry state. [fuel] bounds the recursion. *)
Fixpoint _request_with_retries (fuel : nat) (a : request_args)
    (retry_strategy_state : retry_strategy) : M pyret :=
  '(new_retry_strategy_state, should_retry_on_failure)
     ← sleep retry_strategy_state;
  '(resp, saved_exception) ← _make_request a should_retry_on_failure;
  do_retry ← (match resp with
              | Some r =>
                  if status_code r =? 401
                  then _clear_access_token;; authorizer_has_refresh
                  else mret false
              | None => mret false
              end);
  if should_retry_on_failure
     && (do_retry
         || match resp with
            | None => true
            | Some r => in_statuses (status_code r) RETRY_STATUSES
            end)
  then match fuel with
       | O => raise OutOfFuel
       | S fuel' =>
           _do_retry_warning resp saved_exception;;
           _request_with_retries fuel' a new_retry_strategy_state
       end
  else handle_response resp.

(** The recursion depth needed: each retry consumes one unit of the state. *)
Definition request_with_retries (a : request_args) (s : retry_strategy)
  : M pyret :=
  _request_with_retries (Z.to_nat (retries s)) a s.

(** ** [Session.request]: preparing the arguments *)

(** The heap operations the preparation uses. *)
Definition alloc (d : dict) : M loc := fun w =>
  let l := fresh (dom (w_heap w)) in
  (inl l, World (w_auth w) (w_random w) (w_rng w) (w_outs w)
                (<[l := d]> (w_heap w)) (w_trace w)).

Definition deref (l : loc) : M dict := fun w =>
  (inl (default ∅ (w_heap w !! l)), w).

(** [d[k] = v] *)
Definition setitem (l : loc) (k : string) (v : pyval) : M unit := fun w =>
  (inl tt, World (w_auth w) (w_random w) (w_rng w) (w_outs w)
                 (<[l := <[k := v]> (default ∅ (w_heap w !! l))]> (w_heap w))
                 (w_trace w)).

(** [copy.deepcopy] of a dictionary of immutable values. *)
Definition deepcopy (l : loc) : M loc :=
  d ← deref l; alloc d.

(** The [data] argument: a [dict] on the heap, or anything else. *)
Inductive data_arg :=
| DataDict (l : loc)
| DataOther (v : pyval).

(** Python's ordering of [str] keys (code point by code point). *)
Definition key_le (a b : string * pyval) : Prop :=
  String.leb a.1 b.1 = true.

Global Instance key_le_dec : RelDecision key_le.
Proof. intros a b. unfold key_le. apply _. Defined.

(** [sorted(data.items())]: the keys of a dict are distinct, so the tuples
    are ordered by their keys. *)
Definition sorted_items (d : dict) : list (string * pyval) :=
  merge_sort key_le (map_to_list d).

Record session := Session { _retry_strategy : retry_strategy }.

(** [Session.__init__]: [FiniteRetryStrategy()] with its default of 3. *)
Definition session_init : session := Session (FiniteRetryStrategy 3).

Section Request.
(** [requests.compat.urljoin] and the requestor's [oauth_url]. *)
Variable urljoin : string -> string -> string.
Variable oauth_url : string.

(** [params = deepcopy(params) or {}]: an empty copy is falsy and is
    replaced by a new [{}]. *)
Definition copy_params (params : option loc) : M loc :=
  match params with
  | None => alloc ∅
  | Some l =>
      l' ← deepcopy l;
      d ← deref l';
      if decide (d = ∅) then alloc ∅ else mret l'
  end.

(** [if isinstance(data, dict): data = deepcopy(data);
    data["api_type"] = "json"; data = sorted(data.items())] *)
Definition prepare_data (data : data_arg) : M body :=
  match data with
  | DataDict l =>
      l' ← deepcopy l;
      setitem l' "api_type" (PStr "json");;
      d ← deref l';
      mret (BForm (sorted_items d))
  | DataOther v => mret (BRaw v)
  end.

(** The statements of [Session.request] before the call of
    [_request_with_retries]. *)
Definition request_prepare (method path : string) (data : data_arg)
    (files json : pyval) (params : option loc) : M request_args :=
  params' ← copy_params params;
  setitem params' "raw_json" (PInt 1);;
  data' ← prepare_data data;
  let url := urljoin oauth_url path in
  mret (RequestArgs data' files json method params' url).

Definition request (self : session) (method path : string) (data : data_arg)
    (files json : pyval) (params : option loc) : M pyret :=
  a ← request_prepare method path data files json params;
  _request_with_retries (Z.to_nat (retries (_retry_strategy self))) a
    (_retry_strategy self).
End Request.

(** ** [Session.__init__] and [session()] *)

(** The [authorizer] argument: an instance of [BaseAuthorizer], or another
    object, given by its [str()] ([None] reads ["None"]). *)
Inductive authorizer_arg :=
| AnAuthorizer (A : authorizer)
| NotAnAuthorizer (str : string).

(** prawcore's [InvalidInvocation], with its message. *)
Record invalid_invocation := InvalidInvocation { ii_message : string }.

(** [Session.__init__]: the authorizer is checked, then kept as
    [self._authorizer] (the world's authorizer), and the retry strategy is
    [FiniteRetryStrategy()]. *)
Definition Session_init (authorizer : authorizer_arg)
    : world -> (session + invalid_invocation) * world := fun w =>
  match authorizer with
  | NotAnAuthorizer s =>
      (inr (InvalidInvocation ("invalid Authorizer: " ++ s)%string), w)
  | AnAuthorizer A =>
      (inl session_init,
       World A (w_random w) (w_rng w) (w_outs w) (w_heap w) (w_trace w))
  end.

(** The module function [session(authorizer=None)]. *)
Definition session_fn (authorizer : authorizer_arg)
    : world -> (session + invalid_invocation) * world :=
  Session_init authorizer.

(** ** Events of a run *)

Definition is_attempt (ev : event) : bool :=
  match ev with EAttempt => true | _ => false end.

Definition attempts (tr : list event) : nat := length (filter is_attempt tr).

Definition is_decode (ev : event) : bool :=
  match ev with EDecode => true | _ => false end.

Definition decodes (tr : list event) : nat := length (filter is_decode tr).

(** The consumed retry states, before and after. *)
Fixpoint consumptions (tr : list event) : list (Z * Z) :=
  match tr with
  | [] => []
  | EConsume b a :: tr' => (b, a) :: consumptions tr'
  | _ :: tr' => consumptions tr'
  end.

(** The events one [sleep] appends: the sleep, if any, then the consumption. *)
Definition sleep_events (r : Z) (u : Q) : list event :=
  (if r <? 3 then [ESleep (inject_Z (if r =? 2 then 0 else 2) + 2 * u)%Q]
   else []) ++ [EConsume r (r - 1)].

(** A world to evaluate examples in. *)
Definition world0 (auth : authorizer) (outs : list outcome) : world :=
  World auth (fun _ => 0%Q) 0 outs ∅ [].

(** The retry warnings of a trace, in order. *)
Fixpoint warnings (tr : list event) : list retry_cause :=
  match tr with
  | [] => []
  | EWarnRetry c :: tr' => c :: warnings tr'
  | _ :: tr' => warnings tr'
  end.

(** The durations of the sleeps of a trace, in order. *)
Fixpoint sleeps (tr : list event) : list Q :=
  match tr with
  | [] => []
  | ESleep s :: tr' => s :: sleeps tr'
  | _ :: tr' => sleeps tr'
  end.

(** The number of times the access token was cleared. *)
Fixpoint clears (tr : list event) : nat :=
  match tr with
  | [] => O
  | EClearToken :: tr' => S (clears tr')
  | _ :: tr' => clears tr'
  end.

(** [n] consumptions from [r]: [r -> r - 1], [r - 1 -> r - 2], ... *)
Fixpoint countdown (r : Z) (n : nat) : list (Z * Z) :=
  match n with
  | O => []
  | S n' => (r, r - 1) :: countdown (r - 1) n'
  end.

(** The sleeps of [n] calls of [sleep()] from state [r], the draws of
    [random.random()] being [R i], [R (i + 1)], ... *)
Fixpoint sleep_plan (r : Z) (n : nat) (R : nat -> Q) (i : nat) : list Q :=
  match n with
  | O => []
  | S n' =>
      if r <? 3
      then (inject_Z (if r =? 2 then 0 else 2) + 2 * R i)%Q
           :: sleep_plan (r - 1) n' R (S i)
      else sleep_plan (r - 1) n' R i
  end.

Definition is_401 (o : outcome) : bool :=
  match o with OResponse r => status_code r =? 401 | _ => false end.

(** The warning of [_do_retry] issued after the outcome [o]: the saved
    transport exception, or the response's status. An exception that is
    not a [RequestException] is never retried. *)
Definition warned_for (o : outcome) (c : retry_cause) : Prop :=
  match o with
  | ORequestException e => c = CauseException (re_original e)
  | OResponse r => c = CauseStatus (status_code r)
  | OOtherException _ => False
  end.

(** ** Lemmas about the embedding *)

Ltac unfold_M :=
  cbv [mbind M_bind mret M_ret raise emit random alloc deref setitem] in *.

Lemma sleep_unfold (r : Z) (w : world) :
  sleep (FiniteRetryStrategy r) w =
  (inl (FiniteRetryStrategy (r - 1), r - 1 >? 0),
   World (w_auth w) (w_random w) (if r <? 3 then S (w_rng w) else w_rng w)
         (w_outs w) (w_heap w)
         (w_trace w ++ sleep_events r (w_random w (w_rng w)))).
Proof.
  unfold sleep, _sleep_seconds, sleep_events, _consume_retry,
    _should_retry_on_failure; unfold_M; cbn.
  destruct (r <? 3); cbn; rewrite <- ?app_assoc; reflexivity.
Qed.

(** The authorizer after the header callback, called with the events [tr]
    so far. *)
Definition callback_auth (A : authorizer) (tr : list event) : authorizer :=
  if negb (is_valid A (access_token A) tr) && has_refresh A
  then set_token A (refresh A tr) else A.

Lemma header_unfold (w : world) :
  _set_header_callback w =
  (inl (bearer_header (callback_auth (w_auth w) (w_trace w))),
   World (callback_auth (w_auth w) (w_trace w)) (w_random w) (w_rng w)
         (w_outs w) (w_heap w) (w_trace w)).
Proof.
  destruct w as [A R i outs h tr]. unfold _set_header_callback, callback_auth.
  cbn [w_auth w_trace]. destruct (_ && _); reflexivity.
Qed.

Lemma has_refresh_callback (A : authorizer) (tr : list event) :
  has_refresh (callback_auth A tr) = has_refresh A.
Proof. unfold callback_auth. destruct (_ && _); reflexivity. Qed.

Lemma is_valid_callback (A : authorizer) (tr : list event) :
  is_valid (callback_auth A tr) = is_valid A.
Proof. unfold callback_auth. destruct (_ && _); reflexivity. Qed.

Lemma refresh_callback (A : authorizer) (tr : list event) :
  refresh (callback_auth A tr) = refresh A.
Proof. unfold callback_auth. destruct (_ && _); reflexivity. Qed.

(** The world after the sleep and the call of one attempt: the header
    callback has run after the sleep, then the transmission. *)
Definition after_attempt (r : Z) (w : world) (rest : list outcome) : world :=
  World (callback_auth (w_auth w)
           (w_trace w ++ sleep_events r (w_random w (w_rng w))))
        (w_random w) (if r <? 3 then S (w_rng w) else w_rng w)
        rest (w_heap w)
        (w_trace w ++ sleep_events r (w_random w (w_rng w)) ++ [EAttempt]).

Definition log_event (w : world) (ev : event) : world :=
  World (w_auth w) (w_random w) (w_rng w) (w_outs w) (w_heap w)
        (w_trace w ++ [ev]).

Definition cleared (w : world) : world :=
  World (set_token (w_auth w) None) (w_random w) (w_rng w)
        (w_outs w) (w_heap w) (w_trace w ++ [EClearToken]).

Ltac step_tac Hw :=
  cbn [_request_with_retries];
  unfold_M; rewrite sleep_unfold;
  unfold _make_request, rate_limiter_call; unfold_M; rewrite header_unfold;
  unfold transmit, after_attempt; cbn;
  rewrite Hw; cbn; rewrite <- ?app_assoc.

Lemma step_other (fuel : nat) (a : request_args) (r : Z) (w : world)
    (n : string) (rest : list outcome) :
  w_outs w = OOtherException n :: rest ->
  _request_with_retries fuel a (FiniteRetryStrategy r) w =
  (inr (EOtherException n), after_attempt r w rest).
Proof. intros Hw. destruct fuel; step_tac Hw; reflexivity. Qed.

Lemma step_raise (fuel : nat) (a : request_args) (r : Z) (w : world)
    (e : request_exception) (rest : list outcome) :
  w_outs w = ORequestException e :: rest ->
  (r - 1 >? 0) = false \/ is_retry_exception (re_original e) = false ->
  _request_with_retries fuel a (FiniteRetryStrategy r) w =
  (inr (ERequestException e), after_attempt r w rest).
Proof.
  intros Hw Hc. destruct fuel; step_tac Hw;
  destruct Hc as [Hc | Hc]; rewrite Hc; cbn;
  rewrite ?orb_true_r; reflexivity.
Qed.

Lemma step_retry_exn (fuel : nat) (a : request_args) (r : Z) (w : world)
    (e : request_exception) (rest : list outcome) :
  w_outs w = ORequestException e :: rest ->
  (r - 1 >? 0) = true -> is_retry_exception (re_original e) = true ->
  _request_with_retries (S fuel) a (FiniteRetryStrategy r) w =
  _request_with_retries fuel a (FiniteRetryStrategy (r - 1))
    (log_event (after_attempt r w rest) (EWarnRetry (CauseException (re_original e)))).
Proof.
  intros Hw Hs He. step_tac Hw. rewrite Hs, He. cbn.
  unfold log_event; cbn; rewrite <- ?app_assoc; reflexivity.
Qed.

(** The world after a response has been inspected for 401. *)
Definition after_response (r : Z) (w : world) (rest : list outcome)
    (resp : response) : world :=
  if status_code resp =? 401 then cleared (after_attempt r w rest)
  else after_attempt r w rest.

Lemma step_response (fuel : nat) (a : request_args) (r : Z) (w : world)
    (resp : response) (rest : list outcome) :
  w_outs w = OResponse resp :: rest ->
  _request_with_retries fuel a (FiniteRetryStrategy r) w =
  let w2 := after_response r w rest resp in
  if (r - 1 >? 0)
     && ((status_code resp =? 401) && has_refresh (w_auth w)
         || in_statuses (status_code resp) RETRY_STATUSES)
  then match fuel with
       | O => (inr OutOfFuel, w2)
       | S fuel' =>
           _request_with_retries fuel' a (FiniteRetryStrategy (r - 1))
             (log_event w2 (EWarnRetry (CauseStatus (status_code resp))))
       end
  else handle_response (Some resp) w2.
Proof.
  intros Hw. unfold after_response.
  destruct fuel; step_tac Hw;
  destruct (status_code resp =? 401); unfold _clear_access_token,
    authorizer_has_refresh, cleared, log_event; cbn;
  rewrite ?has_refresh_callback;
  destruct (r - 1 >? 0); cbn; rewrite <- ?app_assoc; try reflexivity;
  destruct (has_refresh (w_auth w)); cbn; try reflexivity;
  repeat match goal with
         | |- context [if ?b then _ else _] => destruct b; cbn
         end; rewrite <- ?app_assoc; reflexivity.
Qed.

Lemma attempts_app (l1 l2 : list event) :
  attempts (l1 ++ l2) = (attempts l1 + attempts l2)%nat.
Proof. unfold attempts. rewrite filter_app, length_app. reflexivity. Qed.

Lemma attempts_nil : attempts [] = 0%nat.
Proof. reflexivity. Qed.

Lemma attempts_cons (ev : event) (l : list event) :
  attempts (ev :: l) = ((if is_attempt ev then 1 else 0) + attempts l)%nat.
Proof. unfold attempts. cbn. destruct (is_attempt ev); reflexivity. Qed.

Lemma attempts_sleep_events (r : Z) (u : Q) : attempts (sleep_events r u) = 0%nat.
Proof. unfold sleep_events. destruct (r <? 3); reflexivity. Qed.

Lemma retry_status_server_error (s : Z) :
  in_statuses s RETRY_STATUSES = true ->
  STATUS_EXCEPTIONS s = Some ServerError /\ (s =? 401) = false.
Proof.
  unfold in_statuses, RETRY_STATUSES. cbn.
  intros H. repeat (apply orb_true_iff in H as [H | H]);
    try discriminate; apply Z.eqb_eq in H; subst; split; reflexivity.
Qed.

(** The outcomes after which the pipeline retries while attempts remain. *)
Definition retryable_outcome (o : outcome) : bool :=
  match o with
  | ORequestException e => is_retry_exception (re_original e)
  | OResponse r => in_statuses (status_code r) RETRY_STATUSES
  | OOtherException _ => false
  end.

(** The classified error of an outcome (the table of the spec): a
    transport failure is its [RequestException], a server status its
    [ServerError]. *)
Definition classified_error (o : outcome) : exn :=
  match o with
  | ORequestException e => ERequestException e
  | OResponse r => EStatus ServerError r
  | OOtherException n => EOtherException n
  end.

Lemma all_retryable_run (a : request_args) (outs : list outcome) (o : outcome)
    (rest : list outcome) :
  Forall (fun o' => retryable_outcome o' = true) outs ->
  retryable_outcome o = true ->
  forall (fuel : nat) (w : world),
  (length outs <= fuel)%nat ->
  w_outs w = outs ++ o :: rest ->
  exists w',
    _request_with_retries fuel a
      (FiniteRetryStrategy (Z.of_nat (S (length outs)))) w
    = (inr (classified_error o), w') /\
    attempts (w_trace w') = (attempts (w_trace w) + S (length outs))%nat /\
    w_outs w' = rest.
Proof.
  intros Hall Ho. induction Hall as [| o0 outs Ho0 Hall IH]; intros fuel w Hf Hw.
  - cbn in Hw. destruct o as [resp | e | n]; cbn [retryable_outcome] in Ho; try discriminate.
    + rewrite (step_response fuel a _ w resp rest Hw). cbn.
      destruct (retry_status_server_error _ Ho) as [Hcls H401].
      unfold after_response, handle_response. rewrite H401, Hcls.
      eexists; split; [reflexivity |]. split; [| reflexivity].
      unfold after_attempt; cbn [w_trace].
      rewrite !attempts_app, attempts_sleep_events, ?attempts_cons, attempts_nil;
      cbn [is_attempt length]; lia.
    + rewrite (step_raise fuel a (Z.of_nat (S (length (@nil outcome)))) w e rest Hw);
        [| left; reflexivity].
      eexists; split; [reflexivity |]. split; [| reflexivity].
      unfold after_attempt; cbn [w_trace].
      rewrite !attempts_app, attempts_sleep_events, ?attempts_cons, attempts_nil;
      cbn [is_attempt length]; lia.
  - cbn in Hf. destruct fuel as [| fuel]; [lia |].
    assert (Hr : Z.of_nat (S (length (o0 :: outs))) - 1
                 = Z.of_nat (S (length outs))) by (cbn [length]; lia).
    assert (Hs : (Z.of_nat (S (length (o0 :: outs))) - 1 >? 0) = true)
      by (apply Z.gtb_lt; cbn [length]; lia).
    cbn [app] in Hw.
    destruct o0 as [resp | e | n]; cbn [retryable_outcome] in Ho0; try discriminate.
    + rewrite (step_response (S fuel) a _ w resp _ Hw).
      cbn zeta. rewrite Hs, Ho0, orb_true_r. cbn [andb]. rewrite Hr.
      destruct (retry_status_server_error _ Ho0) as [_ H401].
      destruct (IH fuel (log_event (after_response (Z.of_nat (S (length (OResponse resp :: outs)))) w
                   (outs ++ o :: rest) resp)
                   (EWarnRetry (CauseStatus (status_code resp)))))
        as (w' & Hrun & Hatt & Hout); [lia | unfold after_response; rewrite H401; reflexivity |].
      exists w'. split; [exact Hrun |]. split; [| exact Hout].
      rewrite Hatt. unfold after_response; rewrite H401.
      unfold log_event, after_attempt; cbn [w_trace].
      rewrite !attempts_app, attempts_sleep_events, ?attempts_cons, attempts_nil;
      cbn [is_attempt length]; lia.
    + rewrite (step_retry_exn fuel a _ w e _ Hw Hs Ho0). rewrite Hr.
      destruct (IH fuel (log_event (after_attempt (Z.of_nat (S (length (ORequestException e :: outs)))) w
                   (outs ++ o :: rest))
                   (EWarnRetry (CauseException (re_original e)))))
        as (w' & Hrun & Hatt & Hout); [lia | reflexivity |].
      exists w'. split; [exact Hrun |]. split; [| exact Hout].
      rewrite Hatt. unfold log_event, after_attempt; cbn [w_trace].
      rewrite !attempts_app, attempts_sleep_events, ?attempts_cons, attempts_nil;
      cbn [is_attempt length]; lia.
Qed.

(** Concrete inputs. *)
Definition args0 : request_args :=
  RequestArgs (BRaw PNone) PNone PNone "GET" 1%positive
    "https://oauth.reddit.com/api/v1/me".

Definition resp_status (s : Z) : response := Response s None (Some "{}").

Definition conn_error : request_exception :=
  RequestException ConnectionError "Connection aborted.".

(** An authorizer that is valid while it holds a token and whose refresh
    yields the token ["fresh"]. *)
Definition token_held (t : option string) (tr : list event) : bool :=
  match t with Some _ => true | None => false end.

Definition fresh_token (tr : list event) : option string := Some "fresh"%string.

Definition refreshable : authorizer :=
  Authorizer true (Some "token") token_held fresh_token.

(** ** C1: one consumption of [FiniteRetryStrategy] *)

(** C1 (counterexample): with retries-remaining 2 the strategy does not sleep
    [2 + U(0,2)] seconds: with the draw 0 it sleeps 0 seconds. *)
Lemma C1_counterexample :
  ~ (forall w : world,
       w_trace (snd (sleep (FiniteRetryStrategy 2) w)) =
       w_trace w ++ [ESleep (2 + 2 * w_random w (w_rng w))%Q; EConsume 2 1]).
Proof.
  intros H. specialize (H (world0 refreshable [])).
  vm_compute in H. congruence.
Qed.

(** C1 (amended): let [r] be the retries remaining before [sleep()]. If
    [r >= 3] no sleep happens; if [r = 2] the sleep lasts [0 + 2u] seconds,
    and if [r <= 1] it lasts [2 + 2u] seconds, [u] being the draw of
    [random.random()] in [[0,1)]; in every case the new state has
    [r - 1] retries remaining and [shouldRetryOnFailure = (r - 1 > 0)]. *)
Theorem C1_sleep_amended (r : Z) (w : world) :
  let u := w_random w (w_rng w) in
  fst (sleep (FiniteRetryStrategy r) w)
    = inl (FiniteRetryStrategy (r - 1), r - 1 >? 0) /\
  w_trace (snd (sleep (FiniteRetryStrategy r) w))
    = w_trace w
      ++ (if 3 <=? r then []
          else if r =? 2 then [ESleep (0 + 2 * u)%Q]
          else [ESleep (2 + 2 * u)%Q])
      ++ [EConsume r (r - 1)].
Proof.
  cbv zeta. rewrite sleep_unfold. cbn [fst snd w_trace]. split; [reflexivity |].
  unfold sleep_events. f_equal.
  destruct (Z.leb_spec 3 r); destruct (Z.ltb_spec r 3); try lia; [reflexivity |].
  destruct (r =? 2); reflexivity.
Qed.

(** ** C2: exhausting the retries *)

(** C2: from an initial retry count [n >= 1], when every attempt yields a
    retryable outcome (a [ChunkedEncodingError], [ConnectionError] or
    [ReadTimeout] transport failure, or a status of [RETRY_STATUSES]), the
    pipeline performs exactly [n] attempts and raises the classified error of
    the [n]-th outcome; no further outcome is requested. *)
Theorem C2_exhaustion (a : request_args) (n : Z) (outs rest : list outcome)
    (o : outcome) (w : world) :
  1 <= n ->
  length outs = Z.to_nat n ->
  Forall (fun o' => retryable_outcome o' = true) outs ->
  last outs = Some o ->
  w_outs w = outs ++ rest ->
  exists w',
    request_with_retries a (FiniteRetryStrategy n) w
    = (inr (classified_error o), w') /\
    attempts (w_trace w') = (attempts (w_trace w) + Z.to_nat n)%nat /\
    w_outs w' = rest.
Proof.
  intros Hn Hlen Hall Hlast Hw.
  apply last_Some in Hlast as [init ->].
  apply Forall_app in Hall as [Hinit Ho]. inversion Ho; subst.
  rewrite length_app in Hlen. cbn [length] in Hlen.
  assert (Hn' : n = Z.of_nat (S (length init))) by lia. subst n.
  unfold request_with_retries. cbn [retries].
  rewrite Nat2Z.id.
  rewrite <- app_assoc in Hw.
  apply (all_retryable_run a init o rest Hinit H1); [lia | exact Hw].
Qed.

Lemma C2_exhaustion_witness :
  exists w',
    request_with_retries args0 (FiniteRetryStrategy 3)
      (world0 refreshable
         [OResponse (resp_status 503); ORequestException conn_error;
          OResponse (resp_status 522); OResponse (resp_status 200)])
    = (inr (classified_error (OResponse (resp_status 522))), w') /\
    attempts (w_trace w') = (attempts [] + Z.to_nat 3)%nat /\
    w_outs w' = [OResponse (resp_status 200)].
Proof.
  apply (C2_exhaustion args0 3
           [OResponse (resp_status 503); ORequestException conn_error;
            OResponse (resp_status 522)]
           [OResponse (resp_status 200)]);
    [lia | reflexivity | repeat constructor | reflexivity | reflexivity].
Defined.

(** ** More unfolding lemmas *)

Lemma step_nil (fuel : nat) (a : request_args) (r : Z) (w : world) :
  w_outs w = [] ->
  _request_with_retries fuel a (FiniteRetryStrategy r) w =
  (inr NoOutcome,
   World (callback_auth (w_auth w)
            (w_trace w ++ sleep_events r (w_random w (w_rng w))))
         (w_random w) (if r <? 3 then S (w_rng w) else w_rng w)
         (w_outs w) (w_heap w)
         (w_trace w ++ sleep_events r (w_random w (w_rng w)))).
Proof.
  intros Hw. destruct fuel; cbn [_request_with_retries]; unfold_M;
  rewrite sleep_unfold; unfold _make_request, rate_limiter_call; unfold_M;
  rewrite header_unfold; unfold transmit; cbn; rewrite Hw; reflexivity.
Qed.

Lemma step_exn (fuel : nat) (a : request_args) (r : Z) (w : world)
    (e : request_exception) (rest : list outcome) :
  w_outs w = ORequestException e :: rest ->
  _request_with_retries fuel a (FiniteRetryStrategy r) w =
  if (r - 1 >? 0) && is_retry_exception (re_original e)
  then match fuel with
       | O => (inr OutOfFuel, after_attempt r w rest)
       | S fuel' =>
           _request_with_retries fuel' a (FiniteRetryStrategy (r - 1))
             (log_event (after_attempt r w rest)
                (EWarnRetry (CauseException (re_original e))))
       end
  else (inr (ERequestException e), after_attempt r w rest).
Proof.
  intros Hw.
  destruct (r - 1 >? 0) eqn:Hs; destruct (is_retry_exception (re_original e)) eqn:He;
    cbn [andb]; try (apply step_raise; auto; fail).
  destruct fuel.
  - cbn [_request_with_retries]. unfold_M. rewrite sleep_unfold.
    unfold _make_request, rate_limiter_call; unfold_M; rewrite header_unfold;
    unfold transmit, after_attempt; cbn.
    rewrite Hw; cbn. rewrite Hs, He. cbn. rewrite <- app_assoc. reflexivity.
  - apply step_retry_exn; assumption.
Qed.

(** The recursive call of [_request_with_retries] is again a call with
    exactly the recursion depth its state needs. *)
Lemma fuel_of_retry (r : Z) :
  (r - 1 >? 0) = true -> Z.to_nat r = S (Z.to_nat (r - 1)).
Proof. intros H. apply Z.gtb_lt in H. lia. Qed.

Lemma request_step_response (a : request_args) (r : Z) (w : world)
    (resp : response) (rest : list outcome) :
  w_outs w = OResponse resp :: rest ->
  request_with_retries a (FiniteRetryStrategy r) w =
  let w2 := after_response r w rest resp in
  if (r - 1 >? 0)
     && ((status_code resp =? 401) && has_refresh (w_auth w)
         || in_statuses (status_code resp) RETRY_STATUSES)
  then request_with_retries a (FiniteRetryStrategy (r - 1))
         (log_event w2 (EWarnRetry (CauseStatus (status_code resp))))
  else handle_response (Some resp) w2.
Proof.
  intros Hw. unfold request_with_retries. rewrite (step_response _ a r w resp rest Hw).
  cbn zeta. destruct (r - 1 >? 0) eqn:Hs; cbn [andb]; [| reflexivity].
  destruct (_ || _); [| reflexivity].
  cbn [retries]. rewrite (fuel_of_retry r Hs). reflexivity.
Qed.

(** ** C3: an attempt answered with 401 *)

(** C3: when an attempt is answered with status 401, the access token is
    cleared whatever follows; the request is retried exactly when the
    authorizer has [refresh] and [shouldRetryOnFailure] holds (retries
    remaining after this attempt are positive); otherwise the
    authorization error class for 401 is raised with the response. *)
Theorem C3_unauthorized (a : request_args) (r : Z) (w : world)
    (resp : response) (rest : list outcome) :
  w_outs w = OResponse resp :: rest ->
  status_code resp = 401 ->
  let w2 := cleared (after_attempt r w rest) in
  access_token (w_auth w2) = None /\
  has_refresh (w_auth w2) = has_refresh (w_auth w) /\
  In EClearToken (w_trace w2) /\
  request_with_retries a (FiniteRetryStrategy r) w =
  if has_refresh (w_auth w) && (r - 1 >? 0)
  then request_with_retries a (FiniteRetryStrategy (r - 1))
         (log_event w2 (EWarnRetry (CauseStatus 401)))
  else (inr (EStatus AuthorizationErrorClass resp), w2).
Proof.
  intros Hw Hs. cbv zeta. split; [reflexivity |].
  split; [apply has_refresh_callback |].
  split.
  { unfold cleared. cbn [w_trace]. apply in_or_app. right. left. reflexivity. }
  rewrite (request_step_response a r w resp rest Hw). cbv zeta.
  unfold after_response. rewrite Hs. cbn [Z.eqb Pos.eqb].
  replace (in_statuses 401 RETRY_STATUSES) with false by reflexivity.
  rewrite orb_false_r, andb_true_l, andb_comm.
  destruct (has_refresh (w_auth w) && (r - 1 >? 0)); [reflexivity |].
  unfold handle_response. rewrite Hs. reflexivity.
Qed.

Lemma C3_unauthorized_witness :
  w_outs (world0 refreshable [OResponse (resp_status 401); OResponse (resp_status 200)])
    = OResponse (resp_status 401) :: [OResponse (resp_status 200)] /\
  status_code (resp_status 401) = 401 /\
  let w2 := cleared (after_attempt 3
              (world0 refreshable [OResponse (resp_status 401); OResponse (resp_status 200)])
              [OResponse (resp_status 200)]) in
  access_token (w_auth w2) = None /\
  has_refresh (w_auth w2) = has_refresh (w_auth (world0 refreshable
                              [OResponse (resp_status 401); OResponse (resp_status 200)])) /\
  In EClearToken (w_trace w2) /\
  request_with_retries args0 (FiniteRetryStrategy 3)
    (world0 refreshable [OResponse (resp_status 401); OResponse (resp_status 200)]) =
  if has_refresh (w_auth (world0 refreshable
        [OResponse (resp_status 401); OResponse (resp_status 200)])) && (3 - 1 >? 0)
  then request_with_retries args0 (FiniteRetryStrategy (3 - 1))
         (log_event w2 (EWarnRetry (CauseStatus 401)))
  else (inr (EStatus AuthorizationErrorClass (resp_status 401)), w2).
Proof.
  split; [reflexivity |]. split; [reflexivity |].
  apply (C3_unauthorized args0 3 _ (resp_status 401) [OResponse (resp_status 200)]);
    reflexivity.
Defined.

Lemma decodes_app (l1 l2 : list event) :
  decodes (l1 ++ l2) = (decodes l1 + decodes l2)%nat.
Proof. unfold decodes. rewrite filter_app, length_app. reflexivity. Qed.

Lemma decodes_nil : decodes [] = 0%nat.
Proof. reflexivity. Qed.

Lemma decodes_cons (ev : event) (l : list event) :
  decodes (ev :: l) = ((if is_decode ev then 1 else 0) + decodes l)%nat.
Proof. unfold decodes. cbn. destruct (is_decode ev); reflexivity. Qed.

Lemma decodes_after_attempt (r : Z) (w : world) (rest : list outcome) :
  decodes (w_trace (after_attempt r w rest)) = decodes (w_trace w).
Proof.
  unfold after_attempt, sleep_events. cbn [w_trace].
  rewrite !decodes_app. destruct (r <? 3);
  rewrite ?decodes_cons, ?decodes_nil; cbn [is_decode]; lia.
Qed.

Lemma status_exceptions_none (s : Z) :
  STATUS_EXCEPTIONS s = None ->
  in_statuses s RETRY_STATUSES = false /\ (s =? 401) = false.
Proof.
  unfold STATUS_EXCEPTIONS, in_statuses, RETRY_STATUSES. cbn [existsb].
  intros H.
  repeat match type of H with
         | context [if ?b then _ else _] => destruct b eqn:?; [discriminate |]
         end.
  repeat match goal with
         | E : (s =? _) = false |- _ => rewrite E; clear E
         end. split; reflexivity.
Qed.

(** ** C4: the status tables *)

(** C4 (counterexample): a 401 response is not always raised: with a
    refreshable authorizer and retries remaining it is retried, and the
    request then succeeds. *)
Lemma C4_counterexample :
  ~ (forall (r : Z) (w : world) (resp : response) (rest : list outcome)
            (cls : status_exception),
       w_outs w = OResponse resp :: rest ->
       In (status_code resp) [400; 401; 403; 404; 409; 302; 413; 415; 451] ->
       STATUS_EXCEPTIONS (status_code resp) = Some cls ->
       fst (request_with_retries args0 (FiniteRetryStrategy r) w)
       = inr (EStatus cls resp)).
Proof.
  intros H.
  specialize (H 3 (world0 refreshable
                     [OResponse (resp_status 401); OResponse (resp_status 200)])
                (resp_status 401) _ AuthorizationErrorClass eq_refl).
  assert (Hin : In (status_code (resp_status 401))
                  [400; 401; 403; 404; 409; 302; 413; 415; 451])
    by (cbn; tauto).
  specialize (H Hin eq_refl). vm_compute in H. discriminate.
Qed.

(** C4 (amended): [RETRY_STATUSES] is exactly {500, 502, 503, 504, 520,
    522}; [STATUS_EXCEPTIONS] covers exactly 400, 401, 403, 404, 409, 302,
    413, 415, 451 and those six codes. An attempt answered with a status of
    [STATUS_EXCEPTIONS] is retried (with the state [r - 1] and after the
    warning naming the status) when [shouldRetryOnFailure] holds and the
    status is retryable or is 401 with a refreshable authorizer; otherwise
    that status's class is raised carrying the response. *)
Theorem C4_status_table_amended (a : request_args) (r : Z) (w : world)
    (resp : response) (rest : list outcome) (cls : status_exception) :
  w_outs w = OResponse resp :: rest ->
  STATUS_EXCEPTIONS (status_code resp) = Some cls ->
  (forall s : Z, in_statuses s RETRY_STATUSES = true <->
     s = 500 \/ s = 502 \/ s = 503 \/ s = 504 \/ s = 520 \/ s = 522) /\
  (forall s : Z, is_Some (STATUS_EXCEPTIONS s) <->
     In s [400; 401; 403; 404; 409; 302; 413; 415; 451;
           500; 502; 503; 504; 520; 522]) /\
  request_with_retries a (FiniteRetryStrategy r) w =
  let w2 := after_response r w rest resp in
  if (r - 1 >? 0)
     && (in_statuses (status_code resp) RETRY_STATUSES
         || (status_code resp =? 401) && has_refresh (w_auth w))
  then request_with_retries a (FiniteRetryStrategy (r - 1))
         (log_event w2 (EWarnRetry (CauseStatus (status_code resp))))
  else (inr (EStatus cls resp), w2).
Proof.
  intros Hw Hcls. split; [| split].
  - intros s. unfold in_statuses, RETRY_STATUSES. cbn [existsb].
    rewrite orb_false_r, !orb_true_iff, !Z.eqb_eq. lia.
  - intros s. split.
    + intros [c Hc]. unfold STATUS_EXCEPTIONS in Hc.
      repeat match type of Hc with
             | context [if s =? ?k then _ else _] =>
                 destruct (Z.eqb_spec s k); [subst; cbn; tauto |]
             end. discriminate.
    + cbn. intros H. repeat (destruct H as [<- | H]; [eexists; reflexivity |]).
      contradiction.
  - rewrite (request_step_response a r w resp rest Hw). cbv zeta.
    rewrite (orb_comm (in_statuses _ _)).
    destruct (_ && _); [reflexivity |].
    unfold handle_response; rewrite Hcls; reflexivity.
Qed.

(** The 401 of a refreshable authorizer with retries left is retried. *)
Lemma C4_status_table_amended_witness :
  (forall s : Z, in_statuses s RETRY_STATUSES = true <->
     s = 500 \/ s = 502 \/ s = 503 \/ s = 504 \/ s = 520 \/ s = 522) /\
  (forall s : Z, is_Some (STATUS_EXCEPTIONS s) <->
     In s [400; 401; 403; 404; 409; 302; 413; 415; 451;
           500; 502; 503; 504; 520; 522]) /\
  request_with_retries args0 (FiniteRetryStrategy 3)
    (world0 refreshable [OResponse (resp_status 401); OResponse (resp_status 200)]) =
  let w2 := after_response 3
              (world0 refreshable [OResponse (resp_status 401); OResponse (resp_status 200)])
              [OResponse (resp_status 200)] (resp_status 401) in
  if (3 - 1 >? 0)
     && (in_statuses (status_code (resp_status 401)) RETRY_STATUSES
         || (status_code (resp_status 401) =? 401)
            && has_refresh (w_auth (world0 refreshable
                 [OResponse (resp_status 401); OResponse (resp_status 200)])))
  then request_with_retries args0 (FiniteRetryStrategy (3 - 1))
         (log_event w2 (EWarnRetry (CauseStatus (status_code (resp_status 401)))))
  else (inr (EStatus AuthorizationErrorClass (resp_status 401)), w2).
Proof.
  apply (C4_status_table_amended args0 3 _ (resp_status 401)
           [OResponse (resp_status 200)] AuthorizationErrorClass);
    reflexivity.
Defined.

(** ** C5: the success arm *)

(** C5: for an attempt whose response reaches the success arm, a 204 yields
    [None] and no decoding; a 200 or 201 whose [content-length] header is
    ["0"] yields [""] and no decoding; any other 200 or 201 is decoded once,
    yielding the decoded value, or raising [BadJSON] with the response when
    decoding fails. *)
Theorem C5_success_arm (a : request_args) (r : Z) (w : world)
    (resp : response) (rest : list outcome) :
  w_outs w = OResponse resp :: rest ->
  let run := request_with_retries a (FiniteRetryStrategy r) w in
  (status_code resp = 204 ->
     fst run = inl RNone /\ decodes (w_trace (snd run)) = decodes (w_trace w)) /\
  ((status_code resp = 200 \/ status_code resp = 201) ->
   content_length resp = Some "0"%string ->
     fst run = inl (RStr "") /\ decodes (w_trace (snd run)) = decodes (w_trace w)) /\
  ((status_code resp = 200 \/ status_code resp = 201) ->
   content_length resp <> Some "0"%string ->
     decodes (w_trace (snd run)) = S (decodes (w_trace w)) /\
     fst run = match json_body resp with
               | Some j => inl (RJson j)
               | None => inr (EBadJSON resp)
               end).
Proof.
  intros Hw. cbv zeta.
  rewrite (request_step_response a r w resp rest Hw). cbv zeta.
  unfold after_response, handle_response.
  split; [| split].
  - intros Hs. rewrite Hs. cbn. rewrite andb_false_r. cbn.
    split; [reflexivity | apply (decodes_after_attempt r w rest)].
  - intros Hs Hcl. destruct Hs as [Hs | Hs]; rewrite Hs; cbn; rewrite andb_false_r; cbn;
    (destruct (decide (content_length resp = Some "0"%string)); [| contradiction]);
    (split; [reflexivity | apply (decodes_after_attempt r w rest)]).
  - intros Hs Hcl. destruct Hs as [Hs | Hs]; rewrite Hs; cbn; rewrite andb_false_r; cbn;
    (destruct (decide (content_length resp = Some "0"%string)); [contradiction |]);
    unfold_M; cbn [w_trace];
    destruct (json_body resp); cbn [fst snd w_trace];
    (split; [| reflexivity]);
    rewrite decodes_app, (decodes_after_attempt r w rest), decodes_cons, decodes_nil;
    cbn [is_decode]; lia.
Qed.

Lemma C5_success_arm_witness :
  let run := request_with_retries args0 (FiniteRetryStrategy 3)
               (world0 refreshable [OResponse (Response 200 (Some "2") None)]) in
  (status_code (Response 200 (Some "2") None) = 204 ->
     fst run = inl RNone /\ decodes (w_trace (snd run)) = decodes []) /\
  ((status_code (Response 200 (Some "2") None) = 200 \/
    status_code (Response 200 (Some "2") None) = 201) ->
   content_length (Response 200 (Some "2") None) = Some "0"%string ->
     fst run = inl (RStr "") /\ decodes (w_trace (snd run)) = decodes []) /\
  ((status_code (Response 200 (Some "2") None) = 200 \/
    status_code (Response 200 (Some "2") None) = 201) ->
   content_length (Response 200 (Some "2") None) <> Some "0"%string ->
     decodes (w_trace (snd run)) = S (decodes []) /\
     fst run = match json_body (Response 200 (Some "2") None) with
               | Some j => inl (RJson j)
               | None => inr (EBadJSON (Response 200 (Some "2") None))
               end).
Proof.
  apply (C5_success_arm args0 3
           (world0 refreshable [OResponse (Response 200 (Some "2") None)])
           (Response 200 (Some "2") None) []).
  reflexivity.
Defined.

(** ** C8: transport exceptions that are not retried *)

(** C8: when an attempt raises a [RequestException] whose original exception
    is not one of [RETRY_EXCEPTIONS], or when [shouldRetryOnFailure] is false,
    that same exception leaves the pipeline, after this single attempt. *)
Theorem C8_transport_propagates (a : request_args) (r : Z) (w : world)
    (e : request_exception) (rest : list outcome) :
  w_outs w = ORequestException e :: rest ->
  is_retry_exception (re_original e) = false \/ (r - 1 >? 0) = false ->
  request_with_retries a (FiniteRetryStrategy r) w
  = (inr (ERequestException e), after_attempt r w rest).
Proof.
  intros Hw Hc. unfold request_with_retries. apply step_raise; [exact Hw |].
  destruct Hc; [right | left]; assumption.
Qed.

Lemma C8_transport_propagates_witness :
  request_with_retries args0 (FiniteRetryStrategy 3)
    (world0 refreshable
       [ORequestException (RequestException (OtherOriginal "InvalidURL") "bad url")])
  = (inr (ERequestException (RequestException (OtherOriginal "InvalidURL") "bad url")),
     after_attempt 3
       (world0 refreshable
          [ORequestException (RequestException (OtherOriginal "InvalidURL") "bad url")])
       []).
Proof.
  apply C8_transport_propagates; [reflexivity | left; reflexivity].
Defined.

(** ** C7: statuses outside the tables *)

(** The statuses the tables of [Session] know about. *)
Definition known_status (s : Z) : bool :=
  match STATUS_EXCEPTIONS s with
  | Some _ => true
  | None => (s =? 204) || in_statuses s SUCCESS_STATUSES
  end.

Definition known_outcome (o : outcome) : bool :=
  match o with
  | OResponse resp => known_status (status_code resp)
  | _ => true
  end.

Lemma outs_after_response (r : Z) (w : world) (rest : list outcome)
    (resp : response) :
  w_outs (after_response r w rest resp) = rest.
Proof. unfold after_response. destruct (_ =? 401); reflexivity. Qed.

Lemma handle_known (resp : response) (w : world) (s : Z) :
  known_status (status_code resp) = true ->
  fst (handle_response (Some resp) w) <> inr (EAssertionError s).
Proof.
  unfold known_status, handle_response.
  destruct (STATUS_EXCEPTIONS (status_code resp)); [discriminate |].
  intros H. destruct (status_code resp =? 204); [discriminate |].
  rewrite orb_false_l in H. rewrite H. cbn [negb].
  destruct (decide _); [discriminate |]. unfold_M.
  destruct (json_body resp); discriminate.
Qed.

Lemma no_assertion_known (a : request_args) (fuel : nat) :
  forall (r : Z) (w : world),
  Forall (fun o => known_outcome o = true) (w_outs w) ->
  forall s : Z,
  fst (_request_with_retries fuel a (FiniteRetryStrategy r) w)
  <> inr (EAssertionError s).
Proof.
  induction fuel as [| fuel IH]; intros r w Hk s;
    destruct (w_outs w) as [| o rest] eqn:Hw;
    try (rewrite (step_nil _ a r w Hw); discriminate);
    inversion Hk as [| ? ? Ho Hrest]; subst;
    destruct o as [resp | e | n].
  - rewrite (step_response 0 a r w resp rest Hw). cbv zeta.
    destruct (_ && _); [discriminate | apply handle_known; exact Ho].
  - rewrite (step_exn 0 a r w e rest Hw). destruct (_ && _); discriminate.
  - rewrite (step_other 0 a r w n rest Hw). discriminate.
  - rewrite (step_response (S fuel) a r w resp rest Hw). cbv zeta.
    destruct (_ && _); [| apply handle_known; exact Ho].
    apply IH. cbn [w_outs log_event]. rewrite outs_after_response. exact Hrest.
  - rewrite (step_exn (S fuel) a r w e rest Hw).
    destruct (_ && _); [| discriminate]. apply IH. exact Hrest.
  - rewrite (step_other (S fuel) a r w n rest Hw). discriminate.
Qed.

(** C7: an attempt answered with a status that is neither in
    [STATUS_EXCEPTIONS] nor 204 nor in [SUCCESS_STATUSES] fails the assertion
    of [_request_with_retries] after that single attempt, whatever the retry
    state; and when every response a run receives has a status of these
    tables, no run ends in the assertion failure. *)
Theorem C7_unexpected_status (a : request_args) (r : Z) (w : world)
    (resp : response) (rest : list outcome) :
  w_outs w = OResponse resp :: rest ->
  STATUS_EXCEPTIONS (status_code resp) = None ->
  status_code resp <> 204 ->
  in_statuses (status_code resp) SUCCESS_STATUSES = false ->
  request_with_retries a (FiniteRetryStrategy r) w
  = (inr (EAssertionError (status_code resp)), after_attempt r w rest) /\
  (forall (r' : Z) (w' : world),
     Forall (fun o => known_outcome o = true) (w_outs w') ->
     forall s : Z,
     fst (request_with_retries a (FiniteRetryStrategy r') w')
     <> inr (EAssertionError s)).
Proof.
  intros Hw Hnone H204 Hsucc. split.
  - rewrite (request_step_response a r w resp rest Hw). cbv zeta.
    destruct (status_exceptions_none _ Hnone) as [Hretry H401].
    rewrite Hretry, H401. cbn [andb orb]. rewrite andb_false_r.
    unfold after_response, handle_response. rewrite H401, Hnone.
    apply Z.eqb_neq in H204. rewrite H204, Hsucc. reflexivity.
  - intros r' w' Hk s. apply no_assertion_known. exact Hk.
Qed.

Lemma C7_unexpected_status_witness :
  request_with_retries args0 (FiniteRetryStrategy 3)
    (world0 refreshable [OResponse (resp_status 418)])
  = (inr (EAssertionError (status_code (resp_status 418))),
     after_attempt 3 (world0 refreshable [OResponse (resp_status 418)]) []) /\
  (forall (r' : Z) (w' : world),
     Forall (fun o => known_outcome o = true) (w_outs w') ->
     forall s : Z,
     fst (request_with_retries args0 (FiniteRetryStrategy r') w')
     <> inr (EAssertionError s)).
Proof.
  apply (C7_unexpected_status args0 3 _ (resp_status 418) []);
    [reflexivity | reflexivity | discriminate | reflexivity].
Defined.

(** ** C9: the retry state along a run *)

(** A consumption moves a state to its predecessor, which is not negative. *)
Definition consumption_ok (c : Z * Z) : Prop := c.2 = c.1 - 1 /\ 0 <= c.2.

(** The run from [w] to [w'] left the heap alone and only appended events,
    every consumption among them being [consumption_ok]. *)
Definition extends_ok (w w' : world) : Prop :=
  w_heap w' = w_heap w /\
  exists ext, w_trace w' = w_trace w ++ ext /\
              Forall consumption_ok (consumptions ext).

Lemma consumptions_app (l1 l2 : list event) :
  consumptions (l1 ++ l2) = consumptions l1 ++ consumptions l2.
Proof.
  induction l1 as [| ev l1 IH]; [reflexivity |].
  destruct ev; cbn; rewrite ?IH; reflexivity.
Qed.

Lemma extends_ok_refl (w : world) : extends_ok w w.
Proof. split; [reflexivity |]. exists []. rewrite app_nil_r. split; [reflexivity | constructor]. Qed.

Lemma extends_ok_trans (w1 w2 w3 : world) :
  extends_ok w1 w2 -> extends_ok w2 w3 -> extends_ok w1 w3.
Proof.
  intros (Hh1 & e1 & H1 & O1) (Hh2 & e2 & H2 & O2).
  split; [congruence |]. exists (e1 ++ e2).
  rewrite H2, H1, app_assoc. split; [reflexivity |].
  rewrite consumptions_app. apply Forall_app; split; assumption.
Qed.

Lemma extends_ok_event (w : world) (ev : event) :
  (forall b a, ev = EConsume b a -> consumption_ok (b, a)) ->
  extends_ok w (World (w_auth w) (w_random w) (w_rng w) (w_outs w) (w_heap w)
                      (w_trace w ++ [ev])).
Proof.
  intros H. split; [reflexivity |]. exists [ev]. split; [reflexivity |].
  destruct ev; cbn; try (constructor; fail).
  constructor; [apply H; reflexivity | constructor].
Qed.

Lemma extends_ok_after_attempt (r : Z) (w : world) (rest : list outcome) :
  1 <= r -> extends_ok w (after_attempt r w rest).
Proof.
  intros Hr. split; [reflexivity |].
  exists (sleep_events r (w_random w (w_rng w)) ++ [EAttempt]).
  split; [reflexivity |].
  unfold sleep_events. rewrite !consumptions_app.
  destruct (r <? 3); cbn; repeat constructor; cbn; lia.
Qed.

Lemma extends_ok_after_response (r : Z) (w : world) (rest : list outcome)
    (resp : response) :
  1 <= r -> extends_ok w (after_response r w rest resp).
Proof.
  intros Hr. unfold after_response. destruct (_ =? 401).
  - apply (extends_ok_trans _ (after_attempt r w rest));
      [apply extends_ok_after_attempt; exact Hr |].
    split; [reflexivity |]. exists [EClearToken]. split; [reflexivity | constructor].
  - apply extends_ok_after_attempt; exact Hr.
Qed.

Lemma extends_ok_log_event (w : world) (c : retry_cause) :
  extends_ok w (log_event w (EWarnRetry c)).
Proof. apply extends_ok_event. discriminate. Qed.

Lemma extends_ok_handle (resp : option response) (w : world) :
  extends_ok w (snd (handle_response resp w)).
Proof.
  unfold handle_response. destruct resp as [r |]; [| apply extends_ok_refl].
  destruct (STATUS_EXCEPTIONS (status_code r)); [apply extends_ok_refl |].
  destruct (status_code r =? 204); [apply extends_ok_refl |].
  destruct (negb _); [apply extends_ok_refl |].
  destruct (decide _); [apply extends_ok_refl |].
  unfold_M. apply (extends_ok_trans _ (World (w_auth w) (w_random w) (w_rng w)
                     (w_outs w) (w_heap w) (w_trace w ++ [EDecode]))).
  - apply extends_ok_event. discriminate.
  - destruct (json_body r); apply extends_ok_refl.
Qed.

Lemma run_extends_ok (a : request_args) (fuel : nat) :
  forall (r : Z) (w : world), 1 <= r ->
  extends_ok w (snd (_request_with_retries fuel a (FiniteRetryStrategy r) w)).
Proof.
  induction fuel as [| fuel IH]; intros r w Hr;
    destruct (w_outs w) as [| o rest] eqn:Hw.
  1, 3: rewrite (step_nil _ a r w Hw); cbn [snd]; split; [reflexivity |];
        exists (sleep_events r (w_random w (w_rng w))); split; [reflexivity |];
        unfold sleep_events; rewrite consumptions_app;
        destruct (r <? 3); cbn; repeat constructor; cbn; lia.
  all: destruct o as [resp | e | n].
  all: try (rewrite (step_other _ a r w n rest Hw); cbn [snd];
            apply extends_ok_after_attempt; exact Hr).
  - rewrite (step_response 0 a r w resp rest Hw). cbv zeta.
    destruct (_ && _); cbn [snd].
    + apply extends_ok_after_response; exact Hr.
    + eapply extends_ok_trans; [apply extends_ok_after_response; exact Hr |].
      apply extends_ok_handle.
  - rewrite (step_exn 0 a r w e rest Hw).
    destruct (_ && _); cbn [snd]; apply extends_ok_after_attempt; exact Hr.
  - rewrite (step_response (S fuel) a r w resp rest Hw). cbv zeta.
    destruct ((r - 1 >? 0) && _) eqn:Hc.
    + apply andb_true_iff in Hc as [Hs _]. apply Z.gtb_lt in Hs.
      eapply extends_ok_trans; [apply extends_ok_after_response; exact Hr |].
      eapply extends_ok_trans; [apply extends_ok_log_event |].
      apply IH. lia.
    + eapply extends_ok_trans; [apply extends_ok_after_response; exact Hr |].
      apply extends_ok_handle.
  - rewrite (step_exn (S fuel) a r w e rest Hw).
    destruct ((r - 1 >? 0) && _) eqn:Hc; cbn [snd].
    + apply andb_true_iff in Hc as [Hs _]. apply Z.gtb_lt in Hs.
      eapply extends_ok_trans; [apply extends_ok_after_attempt; exact Hr |].
      eapply extends_ok_trans; [apply extends_ok_log_event |].
      apply IH. lia.
    + apply extends_ok_after_attempt; exact Hr.
Qed.

(** ** The preparation of [Session.request] on the heap *)

(** The dictionary the caller passed as [params] ([None] reads as [{}]). *)
Definition caller_dict (h : gmap loc dict) (params : option loc) : dict :=
  match params with
  | None => ∅
  | Some l => default ∅ (h !! l)
  end.

Lemma fresh_not_in (h : gmap loc dict) (l : loc) :
  l ∈ dom h -> l <> fresh (dom h).
Proof. intros Hl ->. exact (is_fresh (dom h) Hl). Qed.

Lemma fresh_insert_not_in (h : gmap loc dict) (l : loc) (d : dict) :
  (fresh (dom (<[l := d]> h)) ∉ dom h) /\ fresh (dom (<[l := d]> h)) <> l.
Proof.
  pose proof (is_fresh (dom (<[l := d]> h))) as H.
  set (f := fresh (dom (<[l := d]> h))) in *. clearbody f.
  split.
  - intros Hf. apply H. apply elem_of_dom. rewrite lookup_insert_ne.
    + apply elem_of_dom. exact Hf.
    + intros ->. apply H. apply elem_of_dom. rewrite lookup_insert_eq.
      eexists; reflexivity.
  - intros ->. apply H. apply elem_of_dom. rewrite lookup_insert_eq.
    eexists; reflexivity.
Qed.

Lemma copy_params_spec (params : option loc) (A : authorizer) (R : nat -> Q)
    (N : nat) (O : list outcome) (h : gmap loc dict) (T : list event) :
  exists l' h1,
    copy_params params (World A R N O h T) = (inl l', World A R N O h1 T) /\
    (l' ∉ dom h) /\
    h1 !! l' = Some (caller_dict h params) /\
    (forall l, l ∈ dom h -> h1 !! l = h !! l).
Proof.
  destruct params as [l0 |]; unfold copy_params, deepcopy; unfold_M; cbn [w_heap].
  - rewrite lookup_insert_eq. cbn [default].
    match goal with |- context [decide ?P] => destruct (decide P) as [E | E] end;
      change (default ∅ (h !! l0) = ∅) in E || change (default ∅ (h !! l0) ≠ ∅) in E;
      cbn [w_auth w_random w_rng w_outs w_heap w_trace].
    + destruct (fresh_insert_not_in h (fresh (dom h)) (default ∅ (h !! l0)))
        as [Hn Hne].
      eexists _, _. split; [reflexivity |]. split; [exact Hn |].
      split; [rewrite lookup_insert_eq; unfold caller_dict; rewrite E; reflexivity |].
      intros l Hl. pose proof (fresh_not_in h l Hl) as H1.
      assert (H2 : l <> fresh (dom (<[fresh (dom h):=default ∅ (h !! l0)]> h)))
        by (intros ->; exact (Hn Hl)).
      rewrite !lookup_insert_ne; [reflexivity | congruence | congruence].
    + eexists _, _. split; [reflexivity |]. split; [apply is_fresh |].
      split; [rewrite lookup_insert_eq; reflexivity |].
      intros l Hl. pose proof (fresh_not_in h l Hl).
      rewrite lookup_insert_ne; [reflexivity | congruence].
  - eexists _, _. split; [reflexivity |]. split; [apply is_fresh |].
    split; [rewrite lookup_insert_eq; reflexivity |].
    intros l Hl. pose proof (fresh_not_in h l Hl).
    rewrite lookup_insert_ne; [reflexivity | congruence].
Qed.

Lemma prepare_data_spec (data : data_arg) (A : authorizer) (R : nat -> Q)
    (N : nat) (O : list outcome) (h : gmap loc dict) (T : list event) :
  (forall l, data = DataDict l -> l ∈ dom h) ->
  exists h1,
    prepare_data data (World A R N O h T)
    = (inl (match data with
            | DataDict l =>
                BForm (sorted_items
                         (<["api_type" := PStr "json"]> (default ∅ (h !! l))))
            | DataOther v => BRaw v
            end), World A R N O h1 T) /\
    (forall l, l ∈ dom h -> h1 !! l = h !! l).
Proof.
  intros Hd. destruct data as [l0 | v].
  - unfold prepare_data, deepcopy; unfold_M; cbn [w_heap].
    rewrite !lookup_insert_eq. cbn [default].
    eexists. split; [reflexivity |].
    intros l Hl. pose proof (fresh_not_in h l Hl).
    rewrite insert_insert_eq, lookup_insert_ne; [reflexivity | congruence].
  - exists h. split; reflexivity.
Qed.

Lemma request_prepare_spec (urljoin : string -> string -> string)
    (oauth_url method path : string) (data : data_arg) (files json : pyval)
    (params : option loc) (A : authorizer) (R : nat -> Q) (N : nat)
    (O : list outcome) (h : gmap loc dict) (T : list event) :
  (forall l, data = DataDict l -> l ∈ dom h) ->
  exists a h1,
    request_prepare urljoin oauth_url method path data files json params
      (World A R N O h T) = (inl a, World A R N O h1 T) /\
    (forall l, l ∈ dom h -> h1 !! l = h !! l) /\
    h1 !! ra_params a = Some (<["raw_json" := PInt 1]> (caller_dict h params)) /\
    ra_data a = match data with
                | DataDict l =>
                    BForm (sorted_items
                             (<["api_type" := PStr "json"]> (default ∅ (h !! l))))
                | DataOther v => BRaw v
                end /\
    ra_method a = method /\ ra_url a = urljoin oauth_url path /\
    ra_files a = files /\ ra_json a = json.
Proof.
  intros Hd.
  destruct (copy_params_spec params A R N O h T) as (lp & h1 & Hc & Hlp & Hh1 & Hold1).
  set (h2 := <[lp := <["raw_json" := PInt 1]> (caller_dict h params)]> h1).
  assert (Hold2 : forall l, l ∈ dom h -> h2 !! l = h !! l).
  { intros l Hl. unfold h2. rewrite lookup_insert_ne; [apply Hold1; exact Hl |].
    intros ->. exact (Hlp Hl). }
  assert (Hdom : forall l, data = DataDict l -> l ∈ dom h2).
  { intros l E. apply elem_of_dom. rewrite (Hold2 l (Hd l E)).
    apply elem_of_dom. exact (Hd l E). }
  destruct (prepare_data_spec data A R N O h2 T Hdom) as (h3 & Hp & Hold3).
  unfold request_prepare. unfold_M. rewrite Hc. cbn [w_heap w_auth w_random w_rng w_outs w_trace].
  rewrite Hh1.
  change (<[lp:=<["raw_json":=PInt 1]> (default ∅ (Some (caller_dict h params)))]> h1)
    with h2.
  rewrite Hp.
  eexists _, h3. split; [reflexivity |].
  split; [intros l Hl; rewrite Hold3; [apply Hold2; exact Hl | ] |].
  { apply elem_of_dom. rewrite (Hold2 l Hl). apply elem_of_dom. exact Hl. }
  cbn [ra_params ra_data ra_method ra_url ra_files ra_json].
  split.
  { rewrite Hold3; [unfold h2; apply lookup_insert_eq |].
    apply elem_of_dom. unfold h2. rewrite lookup_insert_eq. eexists; reflexivity. }
  split; [| repeat split].
  destruct data as [l0 |]; [| reflexivity].
  rewrite (Hold2 l0 (Hd l0 eq_refl)). reflexivity.
Qed.

Global Instance key_le_total : Total key_le.
Proof. intros a b. unfold key_le. apply String.leb_total. Qed.

Lemma sorted_items_spec (d : dict) :
  Sorted key_le (sorted_items d) /\
  NoDup ((sorted_items d).*1) /\
  (forall k v, (k, v) ∈ sorted_items d <-> d !! k = Some v).
Proof.
  unfold sorted_items.
  pose proof (merge_sort_Permutation key_le (map_to_list d)) as P.
  split; [apply Sorted_merge_sort; exact key_le_total |]. split.
  - rewrite P. apply NoDup_fst_map_to_list.
  - intros k v. rewrite P. apply elem_of_map_to_list.
Qed.

(** The form body [{b: 2, a: 1}] of the spec's example. *)
Definition form_ba : dict := <["b" := PInt 2]> (<["a" := PInt 1]> ∅).

Example form_ba_sorted :
  sorted_items (<["api_type" := PStr "json"]> form_ba)
  = [("a", PInt 1); ("api_type", PStr "json"); ("b", PInt 2)].
Proof. vm_compute. reflexivity. Qed.

(** A heap holding the caller's form dictionary at reference 1. *)
Definition heap_ba : gmap loc dict := <[1%positive := form_ba]> ∅.

Definition world_ba : world :=
  World refreshable (fun _ => 0%Q) 0 [OResponse (resp_status 200)] heap_ba [].

(** ** C6: the markers and the order of the form fields *)

(** C6: [Session.request] sends as query parameters a dictionary holding the
    caller's parameters (none reads as [{}]) with [raw_json] set to 1; for a
    form dictionary it sends the list of its items with [api_type] set to
    ["json"], sorted by field name, each field once. *)
Theorem C6_markers (urljoin : string -> string -> string)
    (oauth_url method path : string) (data : data_arg) (files json : pyval)
    (params : option loc) (w : world) :
  (forall l, data = DataDict l -> l ∈ dom (w_heap w)) ->
  exists a w1,
    request_prepare urljoin oauth_url method path data files json params w
    = (inl a, w1) /\
    w_heap w1 !! ra_params a
    = Some (<["raw_json" := PInt 1]> (caller_dict (w_heap w) params)) /\
    (forall l, data = DataDict l ->
       exists items,
         ra_data a = BForm items /\
         Sorted key_le items /\
         NoDup (items.*1) /\
         (forall k v, (k, v) ∈ items <->
            <["api_type" := PStr "json"]> (default ∅ (w_heap w !! l)) !! k
            = Some v)).
Proof.
  intros Hd. destruct w as [A R N O h T]. cbn [w_heap] in *.
  destruct (request_prepare_spec urljoin oauth_url method path data files json
              params A R N O h T Hd)
    as (a & h1 & Hrun & _ & Hpar & Hdata & _).
  exists a, (World A R N O h1 T). split; [exact Hrun |]. split; [exact Hpar |].
  intros l ->. eexists. split; [exact Hdata |]. apply sorted_items_spec.
Qed.

Lemma C6_markers_witness :
  exists a w1,
    request_prepare (fun base p => base ++ p)%string "https://oauth.reddit.com"
      "POST" "/api/comment" (DataDict 1) PNone PNone None world_ba
    = (inl a, w1) /\
    w_heap w1 !! ra_params a
    = Some (<["raw_json" := PInt 1]> (caller_dict (w_heap world_ba) None)) /\
    (forall l, DataDict 1 = DataDict l ->
       exists items,
         ra_data a = BForm items /\
         Sorted key_le items /\
         NoDup (items.*1) /\
         (forall k v, (k, v) ∈ items <->
            <["api_type" := PStr "json"]> (default ∅ (w_heap world_ba !! l)) !! k
            = Some v)).
Proof.
  apply C6_markers. intros l [= <-]. apply elem_of_dom.
  exists form_ba. reflexivity.
Defined.

(** ** C9: the retry state is a value *)

(** C9: one consumption of the retry state gives the new state and the
    retry flag whatever the world, random draws included, with one retry
    fewer; and along a run of the pipeline from a state with at least one
    retry, every consumption goes from [r] to [r - 1 >= 0]. *)
Theorem C9_retry_state (a : request_args) (r : Z) (w : world) :
  1 <= r ->
  (forall (r' : Z) (w1 w2 : world),
     fst (sleep (FiniteRetryStrategy r') w1) = fst (sleep (FiniteRetryStrategy r') w2)) /\
  (forall (r' : Z) (w1 : world),
     fst (sleep (FiniteRetryStrategy r') w1)
     = inl (FiniteRetryStrategy (r' - 1), r' - 1 >? 0)) /\
  exists ext,
    w_trace (snd (request_with_retries a (FiniteRetryStrategy r) w))
    = w_trace w ++ ext /\
    Forall (fun c => c.2 = c.1 - 1 /\ 0 <= c.2) (consumptions ext).
Proof.
  intros Hr. split; [| split].
  - intros r' w1 w2. rewrite !sleep_unfold. reflexivity.
  - intros r' w1. rewrite sleep_unfold. reflexivity.
  - destruct (run_extends_ok a (Z.to_nat (retries (FiniteRetryStrategy r))) r w Hr)
      as (_ & ext & Htr & Hok).
    exists ext. split; [exact Htr | exact Hok].
Qed.

Lemma C9_retry_state_witness :
  (forall (r' : Z) (w1 w2 : world),
     fst (sleep (FiniteRetryStrategy r') w1) = fst (sleep (FiniteRetryStrategy r') w2)) /\
  (forall (r' : Z) (w1 : world),
     fst (sleep (FiniteRetryStrategy r') w1)
     = inl (FiniteRetryStrategy (r' - 1), r' - 1 >? 0)) /\
  exists ext,
    w_trace (snd (request_with_retries args0 (_retry_strategy session_init)
                    (world0 refreshable [OResponse (resp_status 503)])))
    = w_trace (world0 refreshable [OResponse (resp_status 503)]) ++ ext /\
    Forall (fun c => c.2 = c.1 - 1 /\ 0 <= c.2) (consumptions ext).
Proof.
  apply (C9_retry_state args0 3). lia.
Defined.

(** ** C10: the caller's dictionaries *)

Lemma heap_after_response (r : Z) (w : world) (rest : list outcome)
    (resp : response) :
  w_heap (after_response r w rest resp) = w_heap w.
Proof. unfold after_response. destruct (_ =? 401); reflexivity. Qed.

Lemma run_heap (a : request_args) (fuel : nat) :
  forall (r : Z) (w : world),
  w_heap (snd (_request_with_retries fuel a (FiniteRetryStrategy r) w)) = w_heap w.
Proof.
  induction fuel as [| fuel IH]; intros r w;
    destruct (w_outs w) as [| o rest] eqn:Hw;
    try (rewrite (step_nil _ a r w Hw); reflexivity);
    destruct o as [resp | e | n];
    try (rewrite (step_other _ a r w n rest Hw); reflexivity).
  - rewrite (step_response 0 a r w resp rest Hw). cbv zeta.
    destruct (_ && _); cbn [snd]; [apply heap_after_response |].
    destruct (extends_ok_handle (Some resp) (after_response r w rest resp)) as [Hh _].
    rewrite Hh. apply heap_after_response.
  - rewrite (step_exn 0 a r w e rest Hw). destruct (_ && _); reflexivity.
  - rewrite (step_response (S fuel) a r w resp rest Hw). cbv zeta.
    destruct (_ && _).
    + rewrite IH. cbn [log_event w_heap]. apply heap_after_response.
    + destruct (extends_ok_handle (Some resp) (after_response r w rest resp))
        as [Hh _].
      rewrite Hh. apply heap_after_response.
  - rewrite (step_exn (S fuel) a r w e rest Hw).
    destruct (_ && _); [rewrite IH |]; reflexivity.
Qed.

(** C10: after [Session.request], every dictionary that existed before the
    call, the caller's [params] and [data] among them, holds what it held
    before: the markers go into fresh copies. *)
Theorem C10_caller_dicts_unchanged (urljoin : string -> string -> string)
    (oauth_url : string) (self : session) (method path : string)
    (data : data_arg) (files json : pyval) (params : option loc) (w : world) :
  (forall l, data = DataDict l -> l ∈ dom (w_heap w)) ->
  forall l, l ∈ dom (w_heap w) ->
  w_heap (snd (request urljoin oauth_url self method path data files json params w))
    !! l = w_heap w !! l.
Proof.
  intros Hd l Hl. destruct w as [A R N O h T]. cbn [w_heap] in *.
  destruct (request_prepare_spec urljoin oauth_url method path data files json
              params A R N O h T Hd)
    as (a & h1 & Hrun & Hold & _).
  unfold request. unfold_M. rewrite Hrun.
  destruct (_retry_strategy self) as [r].
  rewrite run_heap. cbn [w_heap]. apply Hold. exact Hl.
Qed.

Lemma C10_caller_dicts_unchanged_witness :
  w_heap (snd (request (fun base p => base ++ p)%string "https://oauth.reddit.com"
                 session_init "POST" "/api/comment" (DataDict 1) PNone PNone None
                 world_ba))
    !! 1%positive = w_heap world_ba !! 1%positive.
Proof.
  apply C10_caller_dicts_unchanged.
  - intros l [= <-]. apply elem_of_dom. exists form_ba. reflexivity.
  - apply elem_of_dom. exists form_ba. reflexivity.
Defined.

(** ** Further properties of the pipeline *)

Lemma warnings_app (l1 l2 : list event) :
  warnings (l1 ++ l2) = warnings l1 ++ warnings l2.
Proof. induction l1 as [| ev l1 IH]; [reflexivity |]. destruct ev; cbn; rewrite ?IH; reflexivity. Qed.

Lemma sleeps_app (l1 l2 : list event) :
  sleeps (l1 ++ l2) = sleeps l1 ++ sleeps l2.
Proof. induction l1 as [| ev l1 IH]; [reflexivity |]. destruct ev; cbn; rewrite ?IH; reflexivity. Qed.

Lemma clears_app (l1 l2 : list event) :
  clears (l1 ++ l2) = (clears l1 + clears l2)%nat.
Proof. induction l1 as [| ev l1 IH]; [reflexivity |]. destruct ev; cbn; rewrite ?IH; reflexivity. Qed.

Lemma handle_summary (resp : response) (w : world) :
  exists ext,
    snd (handle_response (Some resp) w)
    = World (w_auth w) (w_random w) (w_rng w) (w_outs w) (w_heap w) (w_trace w ++ ext) /\
    (ext = [] \/ ext = [EDecode]) /\
    fst (handle_response (Some resp) w) <> inr OutOfFuel /\
    fst (handle_response (Some resp) w) <> inr NoOutcome.
Proof.
  destruct w as [A R N O H T].
  unfold handle_response.
  destruct (STATUS_EXCEPTIONS (status_code resp)).
  { exists []. rewrite app_nil_r. repeat split; [left; reflexivity | discriminate | discriminate]. }
  destruct (status_code resp =? 204).
  { exists []. rewrite app_nil_r. repeat split; [left; reflexivity | discriminate | discriminate]. }
  destruct (negb _).
  { exists []. rewrite app_nil_r. repeat split; [left; reflexivity | discriminate | discriminate]. }
  destruct (decide _).
  { exists []. rewrite app_nil_r. repeat split; [left; reflexivity | discriminate | discriminate]. }
  unfold_M. exists [EDecode]. cbn.
  destruct (json_body resp); cbn; repeat split; try (right; reflexivity); discriminate.
Qed.

Lemma consumptions_sleep_events (r : Z) (u : Q) :
  consumptions (sleep_events r u) = [(r, r - 1)].
Proof. unfold sleep_events. destruct (r <? 3); reflexivity. Qed.

Lemma warnings_sleep_events (r : Z) (u : Q) : warnings (sleep_events r u) = [].
Proof. unfold sleep_events. destruct (r <? 3); reflexivity. Qed.

Lemma clears_sleep_events (r : Z) (u : Q) : clears (sleep_events r u) = O.
Proof. unfold sleep_events. destruct (r <? 3); reflexivity. Qed.

Lemma decodes_sleep_events (r : Z) (u : Q) : decodes (sleep_events r u) = O.
Proof. unfold sleep_events. destruct (r <? 3); reflexivity. Qed.

Lemma sleeps_sleep_events (r : Z) (R : nat -> Q) (i : nat) :
  sleeps (sleep_events r (R i)) = sleep_plan r 1 R i.
Proof. unfold sleep_events. cbn. destruct (r <? 3); reflexivity. Qed.

Lemma sleep_plan_S (r : Z) (n : nat) (R : nat -> Q) (i : nat) :
  sleep_plan r (S n) R i
  = sleep_plan r 1 R i ++ sleep_plan (r - 1) n R (i + length (sleep_plan r 1 R i)).
Proof. cbn. destruct (r <? 3); cbn; rewrite ?Nat.add_0_r, ?Nat.add_1_r; reflexivity. Qed.

Lemma attempts_one : attempts [EAttempt] = 1%nat.
Proof. reflexivity. Qed.

Lemma attempts_clear : attempts [EClearToken] = 0%nat.
Proof. reflexivity. Qed.

Lemma attempts_warn (c : retry_cause) : attempts [EWarnRetry c] = 0%nat.
Proof. reflexivity. Qed.

Lemma attempts_decode : attempts [EDecode] = 0%nat.
Proof. reflexivity. Qed.

Lemma decodes_one : decodes [EDecode] = 1%nat.
Proof. reflexivity. Qed.

Lemma decodes_attempt : decodes [EAttempt] = 0%nat.
Proof. reflexivity. Qed.

Lemma decodes_clear : decodes [EClearToken] = 0%nat.
Proof. reflexivity. Qed.

Lemma decodes_warn (c : retry_cause) : decodes [EWarnRetry c] = 0%nat.
Proof. reflexivity. Qed.

Ltac counters :=
  rewrite ?consumptions_app, ?attempts_app, ?warnings_app, ?clears_app,
    ?sleeps_app, ?decodes_app in *.

Definition run_summary_prop (r : Z) (w : world) (res : pyret + exn) (w' : world)
  : Prop :=
  exists ext consumed n,
    w_trace w' = w_trace w ++ ext /\
    w_outs w = consumed ++ w_outs w' /\
    (1 <= n)%nat /\ (n <= Z.to_nat r \/ n = 1)%nat /\
    consumptions ext = countdown r n /\
    length consumed = attempts ext /\
    ((attempts ext = n /\ res <> inr NoOutcome) \/
     (S (attempts ext) = n /\ res = inr NoOutcome /\ w_outs w' = [])) /\
    Forall2 warned_for (take (pred n) consumed) (warnings ext) /\
    clears ext = length (filter is_401 consumed) /\
    has_refresh (w_auth w') = has_refresh (w_auth w) /\
    sleeps ext = sleep_plan r n (w_random w) (w_rng w) /\
    w_random w' = w_random w /\
    w_rng w' = (w_rng w + length (sleeps ext))%nat /\
    (decodes ext <= 1)%nat /\
    res <> inr OutOfFuel.

Lemma rng_sleep_plan (r : Z) (R : nat -> Q) (i : nat) :
  (if r <? 3 then S i else i) = (i + length (sleep_plan r 1 R i))%nat.
Proof. cbn. destruct (r <? 3); cbn; lia. Qed.

Ltac base_close :=
  counters;
  rewrite ?consumptions_sleep_events, ?warnings_sleep_events,
    ?clears_sleep_events, ?decodes_sleep_events, ?sleeps_sleep_events,
    ?attempts_sleep_events, ?attempts_one, ?attempts_clear, ?attempts_decode,
    ?decodes_one, ?decodes_attempt, ?decodes_clear in *;
  cbn [sleeps warnings clears consumptions]; rewrite ?app_nil_r;
  repeat split;
  try reflexivity; try discriminate; try (constructor; fail);
  try (apply rng_sleep_plan); try (apply has_refresh_callback); try lia;
  try (left; reflexivity); try (right; repeat split; reflexivity).

Lemma filter_401_cons (o : outcome) (l : list outcome) :
  length (filter is_401 (o :: l))
  = ((if is_401 o then 1 else 0) + length (filter is_401 l))%nat.
Proof. rewrite filter_cons. destruct (is_401 o); cbn; reflexivity. Qed.

Lemma clears_401 (o : outcome) :
  clears (if is_401 o then [EClearToken] else []) = (if is_401 o then 1 else 0)%nat.
Proof. destruct (is_401 o); reflexivity. Qed.

Lemma attempts_401 (o : outcome) :
  attempts (if is_401 o then [EClearToken] else []) = O.
Proof. destruct (is_401 o); reflexivity. Qed.

Lemma decodes_401 (o : outcome) :
  decodes (if is_401 o then [EClearToken] else []) = O.
Proof. destruct (is_401 o); reflexivity. Qed.

Lemma misc_401 (o : outcome) :
  consumptions (if is_401 o then [EClearToken] else []) = [] /\
  warnings (if is_401 o then [EClearToken] else []) = [] /\
  sleeps (if is_401 o then [EClearToken] else []) = [].
Proof. destruct (is_401 o); repeat split. Qed.

Lemma summary_final (r : Z) (w w3 : world) (o : outcome) (rest : list outcome)
    (hext : list event) (res : pyret + exn) :
  w_outs w = o :: rest ->
  w_trace w3 = w_trace w ++ sleep_events r (w_random w (w_rng w)) ++ [EAttempt]
               ++ (if is_401 o then [EClearToken] else []) ++ hext ->
  (hext = [] \/ hext = [EDecode]) ->
  w_outs w3 = rest ->
  has_refresh (w_auth w3) = has_refresh (w_auth w) ->
  w_random w3 = w_random w ->
  w_rng w3 = (if r <? 3 then S (w_rng w) else w_rng w) ->
  res <> inr OutOfFuel ->
  res <> inr NoOutcome ->
  run_summary_prop r w res w3.
Proof.
  intros Hw Htr Hh Hout Hauth Hrand Hrng Hres Hres'.
  destruct (misc_401 o) as (M1 & M2 & M3).
  assert (H1 : consumptions hext = [] /\ warnings hext = [] /\ sleeps hext = [] /\
               attempts hext = O /\ clears hext = O /\ (decodes hext <= 1)%nat)
    by (destruct Hh as [-> | ->]; repeat split; try reflexivity; compute; lia).
  destruct H1 as (E1 & E2 & E3 & E4 & E5 & E6).
  exists (sleep_events r (w_random w (w_rng w)) ++ [EAttempt]
          ++ (if is_401 o then [EClearToken] else []) ++ hext), [o], 1%nat.
  counters.
  rewrite consumptions_sleep_events, warnings_sleep_events, clears_sleep_events,
    decodes_sleep_events, sleeps_sleep_events, attempts_sleep_events,
    attempts_one, decodes_attempt, clears_401, attempts_401, decodes_401,
    M1, M2, M3, E1, E2, E3, E4, E5.
  cbn [consumptions warnings sleeps clears]. rewrite ?app_nil_r.
  repeat split; try assumption.
  - rewrite Hw, Hout. reflexivity.
  - lia.
  - right. reflexivity.
  - left. split; [lia | exact Hres'].
  - cbn. constructor.
  - rewrite filter_401_cons. cbn. lia.
  - rewrite Hrng. apply rng_sleep_plan.
Qed.

Lemma summary_retry (r : Z) (w w3 : world) (o : outcome) (rest : list outcome)
    (c : retry_cause) (res : pyret + exn) (w' : world) :
  1 < r ->
  w_outs w = o :: rest ->
  w_trace w3 = w_trace w ++ sleep_events r (w_random w (w_rng w)) ++ [EAttempt]
               ++ (if is_401 o then [EClearToken] else []) ++ [EWarnRetry c] ->
  w_outs w3 = rest ->
  has_refresh (w_auth w3) = has_refresh (w_auth w) ->
  w_random w3 = w_random w ->
  w_rng w3 = (if r <? 3 then S (w_rng w) else w_rng w) ->
  warned_for o c ->
  run_summary_prop (r - 1) w3 res w' ->
  run_summary_prop r w res w'.
Proof.
  intros Hr Hw Htr3 Hout3 Hauth3 Hrand3 Hrng3 Hc
    (ext & consumed & n & Htr & Hout & Hn1 & Hn2 & Hcons & Hatt & Hatt2 & Hwarn
     & Hcl & Hauth & Hsl & Hrand & Hrng & Hdec & Hres).
  destruct (misc_401 o) as (M1 & M2 & M3).
  exists (sleep_events r (w_random w (w_rng w)) ++ [EAttempt]
          ++ (if is_401 o then [EClearToken] else []) ++ [EWarnRetry c] ++ ext),
    (o :: consumed), (S n).
  counters.
  rewrite consumptions_sleep_events, warnings_sleep_events, clears_sleep_events,
    decodes_sleep_events, sleeps_sleep_events, attempts_sleep_events,
    attempts_one, decodes_attempt, clears_401, attempts_401, decodes_401,
    attempts_warn, decodes_warn, M1, M2, M3.
  cbn [consumptions warnings sleeps clears app].
  repeat split.
  - rewrite Htr, Htr3, <- !app_assoc. reflexivity.
  - rewrite Hw, <- Hout3, Hout. reflexivity.
  - lia.
  - left. lia.
  - rewrite Hcons. reflexivity.
  - cbn [length]. lia.
  - destruct Hatt2 as [(H1 & H2) | (H1 & H2 & H3)];
      [left; split; [lia | exact H2] | right; split; [lia | auto]].
  - destruct n as [| n']; [lia |]. cbn [pred take]. constructor; assumption.
  - rewrite filter_401_cons, Hcl. lia.
  - rewrite Hauth, Hauth3. reflexivity.
  - rewrite Hsl, Hrand3, Hrng3, (sleep_plan_S r n), (rng_sleep_plan r (w_random w)). reflexivity.
  - rewrite Hrand, Hrand3. reflexivity.
  - rewrite Hrng, Hrng3, (rng_sleep_plan r (w_random w)), !length_app. cbn [length]. lia.
  - lia.
  - exact Hres.
Qed.

Ltac fields :=
  unfold log_event, after_response, cleared, after_attempt;
  cbn [is_401 w_trace w_outs w_auth w_random w_rng];
  repeat match goal with
         | |- context [if ?b then _ else _] =>
             match b with
             | (_ =? 401) => destruct b
             end
         end;
  cbn [w_trace w_outs w_auth w_random w_rng app fst snd];
  unfold set_token; cbn [has_refresh]; rewrite ?has_refresh_callback;
  rewrite <- ?app_assoc; cbn [app]; rewrite ?app_nil_r; try reflexivity.

Lemma run_summary (a : request_args) (fuel : nat) :
  forall (r : Z) (w : world), (Z.to_nat r <= S fuel)%nat ->
  run_summary_prop r w (fst (_request_with_retries fuel a (FiniteRetryStrategy r) w))
    (snd (_request_with_retries fuel a (FiniteRetryStrategy r) w)).
Proof.
  induction fuel as [| fuel IH]; intros r w Hf;
    destruct (w_outs w) as [| o rest] eqn:Hw.
  1, 3: rewrite (step_nil _ a r w Hw); cbn [fst snd];
        exists (sleep_events r (w_random w (w_rng w))), [], 1%nat;
        cbn [w_trace w_outs w_auth w_random w_rng]; rewrite Hw;
        base_close.
  all: destruct o as [resp | e | n].
  3, 6: rewrite (step_other _ a r w n rest Hw); cbn [fst snd];
        apply (summary_final r w _ (OOtherException n) rest []);
        [exact Hw | fields | left; reflexivity | fields .. | discriminate | discriminate].
  all: idtac.
  - rewrite (step_response _ a r w resp rest Hw); cbv zeta.
    destruct (_ && _) eqn:Hc.
    + exfalso. apply andb_true_iff in Hc as [Hs _]. apply Z.gtb_lt in Hs. lia.
    + destruct (handle_summary resp (after_response r w rest resp))
        as (hext & Hsnd & Hh & Hr1 & Hr2).
      rewrite Hsnd.
      apply (summary_final r w _ (OResponse resp) rest hext);
        [exact Hw | fields | exact Hh | fields .. | exact Hr1 | exact Hr2].
  - rewrite (step_exn _ a r w e rest Hw).
    destruct (_ && _) eqn:Hc.
    + exfalso. apply andb_true_iff in Hc as [Hs _]. apply Z.gtb_lt in Hs. lia.
    + apply (summary_final r w _ (ORequestException e) rest []);
        [exact Hw | fields | left; reflexivity | fields .. | discriminate | discriminate].
  - rewrite (step_response _ a r w resp rest Hw); cbv zeta.
    destruct (_ && _) eqn:Hc.
    + apply andb_true_iff in Hc as [Hs _]. apply Z.gtb_lt in Hs.
      apply (summary_retry r w (log_event (after_response r w rest resp)
                                  (EWarnRetry (CauseStatus (status_code resp))))
               (OResponse resp) rest (CauseStatus (status_code resp)));
        [lia | exact Hw | fields .. | reflexivity | apply IH; lia].
    + destruct (handle_summary resp (after_response r w rest resp))
        as (hext & Hsnd & Hh & Hr1 & Hr2).
      rewrite Hsnd.
      apply (summary_final r w _ (OResponse resp) rest hext);
        [exact Hw | fields | exact Hh | fields .. | exact Hr1 | exact Hr2].
  - rewrite (step_exn _ a r w e rest Hw).
    destruct (_ && _) eqn:Hc.
    + apply andb_true_iff in Hc as [Hs _]. apply Z.gtb_lt in Hs.
      apply (summary_retry r w (log_event (after_attempt r w rest)
                                  (EWarnRetry (CauseException (re_original e))))
               (ORequestException e) rest (CauseException (re_original e)));
        [lia | exact Hw | fields .. | reflexivity | apply IH; lia].
    + apply (summary_final r w _ (ORequestException e) rest []);
        [exact Hw | fields | left; reflexivity | fields .. | discriminate | discriminate].
Qed.

Lemma request_summary (a : request_args) (r : Z) (w : world) :
  run_summary_prop r w (fst (request_with_retries a (FiniteRetryStrategy r) w))
    (snd (request_with_retries a (FiniteRetryStrategy r) w)).
Proof. unfold request_with_retries. apply run_summary. cbn [retries]. lia. Qed.

Definition Qsum (l : list Q) : Q := fold_right Qplus 0%Q l.

Lemma sleep_plan_bound (R : nat -> Q) :
  (forall j, 0 <= R j < 1)%Q ->
  forall n r i, (n <= Z.to_nat r \/ n = 1)%nat ->
  (length (sleep_plan r n R i) <= 2)%nat /\
  Forall (fun s => 0 <= s)%Q (sleep_plan r n R i) /\
  (Qsum (sleep_plan r n R i) < 6)%Q.
Proof.
  intros HR n. induction n as [| n IH]; intros r i Hn.
  { cbn. split; [lia | split; [constructor | unfold Qsum; cbn; lra]]. }
  cbn [sleep_plan].
  destruct (Z.ltb_spec r 3) as [Hr | Hr].
  - destruct (Z.eqb_spec r 2) as [-> | H2].
    + (* r = 2: a sleep of 0 + 2u, then at most one attempt from state 1 *)
      assert (Hn' : (n <= 1)%nat) by (cbn in Hn; lia).
      destruct n as [| [| n]]; [| | lia]; cbn; change (2 - 1) with 1; cbn;
        pose proof (HR i); pose proof (HR (S i));
        (split; [lia | split]);
        [repeat (apply List.Forall_cons || apply List.Forall_nil); unfold inject_Z; lra
        | unfold Qsum; cbn; unfold inject_Z; lra
        | repeat (apply List.Forall_cons || apply List.Forall_nil); unfold inject_Z; lra
        | unfold Qsum; cbn; unfold inject_Z; lra].
    + assert (Hn' : n = O) by lia. subst n. cbn.
      pose proof (HR i). split; [lia | split].
      * repeat (apply List.Forall_cons || apply List.Forall_nil); unfold inject_Z; lra.
      * unfold Qsum; cbn; unfold inject_Z; lra.
  - apply IH. lia.
Qed.

Lemma run_first (a : request_args) (fuel : nat) (r : Z) (w : world) :
  (Z.to_nat r <= S fuel)%nat ->
  exists ext,
    w_trace (snd (_request_with_retries fuel a (FiniteRetryStrategy r) w))
    = w_trace w ++ sleep_events r (w_random w (w_rng w)) ++ ext.
Proof.
  intros Hf. destruct (w_outs w) as [| o rest] eqn:Hw.
  { rewrite (step_nil _ a r w Hw). exists []. rewrite app_nil_r. reflexivity. }
  destruct o as [resp | e | n].
  - rewrite (step_response _ a r w resp rest Hw). cbv zeta.
    destruct (_ && _) eqn:Hc.
    + destruct fuel as [| fuel].
      * cbn [snd]. unfold after_response, cleared, after_attempt.
        destruct (_ =? 401); cbn [w_trace]; eexists; rewrite <- ?app_assoc; reflexivity.
      * apply andb_true_iff in Hc as [Hs _]. apply Z.gtb_lt in Hs.
        destruct (run_summary a fuel (r - 1)
                    (log_event (after_response r w rest resp)
                       (EWarnRetry (CauseStatus (status_code resp)))) ltac:(lia))
          as (ext & _ & _ & Htr & _).
        rewrite Htr. unfold log_event, after_response, cleared, after_attempt.
        destruct (_ =? 401); cbn [w_trace]; eexists; rewrite <- ?app_assoc; reflexivity.
    + destruct (handle_summary resp (after_response r w rest resp))
        as (hext & Hsnd & _). rewrite Hsnd. cbn [w_trace].
      unfold after_response, cleared, after_attempt.
      destruct (_ =? 401); cbn [w_trace]; eexists; rewrite <- ?app_assoc; reflexivity.
  - rewrite (step_exn _ a r w e rest Hw).
    destruct (_ && _) eqn:Hc.
    + destruct fuel as [| fuel].
      * cbn [snd]. unfold after_attempt. cbn [w_trace]. eexists. reflexivity.
      * apply andb_true_iff in Hc as [Hs _]. apply Z.gtb_lt in Hs.
        destruct (run_summary a fuel (r - 1)
                    (log_event (after_attempt r w rest)
                       (EWarnRetry (CauseException (re_original e)))) ltac:(lia))
          as (ext & _ & _ & Htr & _).
        rewrite Htr. unfold log_event, after_attempt. cbn [w_trace].
        eexists; rewrite <- ?app_assoc; reflexivity.
    + cbn [snd]. unfold after_attempt. cbn [w_trace]. eexists. reflexivity.
  - rewrite (step_other _ a r w n rest Hw). cbn [snd]. unfold after_attempt.
    cbn [w_trace]. eexists. reflexivity.
Qed.

Lemma request_prepare_world (urljoin : string -> string -> string)
    (oauth_url method path : string) (data : data_arg) (files json : pyval)
    (params : option loc) (w : world) :
  exists a h1,
    request_prepare urljoin oauth_url method path data files json params w
    = (inl a, World (w_auth w) (w_random w) (w_rng w) (w_outs w) h1 (w_trace w)).
Proof.
  destruct w as [A R N O h T]. cbn [w_auth w_random w_rng w_outs w_trace].
  destruct (copy_params_spec params A R N O h T) as (lp & h1 & Hc & _).
  unfold request_prepare. unfold_M. rewrite Hc.
  cbn [w_heap w_auth w_random w_rng w_outs w_trace].
  destruct data as [l |]; unfold prepare_data, deepcopy; unfold_M; cbn;
    eexists _, _; reflexivity.
Qed.

(** Whatever the outcomes, a run of [_request_with_retries] from a
    [FiniteRetryStrategy] with [r] retries calls [sleep()] [n] times, with
    [1 <= n <= max 1 r], on the states [r], [r - 1], ..., [r - n + 1] in this
    order; each call is followed by one attempt unless the outcomes ran out,
    and the recursion never needs more depth than the retry count. *)
Theorem request_attempts_bounded (a : request_args) (r : Z) (w : world) :
  let res := fst (request_with_retries a (FiniteRetryStrategy r) w) in
  let w' := snd (request_with_retries a (FiniteRetryStrategy r) w) in
  exists ext n,
    w_trace w' = w_trace w ++ ext /\
    (1 <= n)%nat /\ (n <= Z.to_nat r \/ n = 1)%nat /\
    consumptions ext = countdown r n /\
    (attempts ext <= n)%nat /\
    (res <> inr NoOutcome -> attempts ext = n) /\
    res <> inr OutOfFuel.
Proof.
  cbv zeta.
  destruct (request_summary a r w)
    as (ext & consumed & n & Htr & _ & Hn1 & Hn2 & Hcons & _ & Hatt & _ & _ & _
        & _ & _ & _ & _ & Hres).
  exists ext, n. repeat split; try assumption.
  - destruct Hatt as [(H & _) | (H & _)]; lia.
  - intros Hno. destruct Hatt as [(H & _) | (_ & H & _)]; [exact H | contradiction].
Qed.

(** Every retry is announced by one warning of [_do_retry]: the [i]-th
    warning names the original exception of the [i]-th attempt when it failed
    with a retryable transport exception, and its status code when it got a
    response; an exception that is not a [RequestException] is never retried.
    A run that ends on an attempt issues one warning fewer than attempts. *)
Theorem request_retry_warnings (a : request_args) (r : Z) (w : world) :
  let res := fst (request_with_retries a (FiniteRetryStrategy r) w) in
  let w' := snd (request_with_retries a (FiniteRetryStrategy r) w) in
  exists ext consumed,
    w_trace w' = w_trace w ++ ext /\
    w_outs w = consumed ++ w_outs w' /\
    length consumed = attempts ext /\
    Forall2 warned_for (take (length (warnings ext)) consumed) (warnings ext) /\
    (res <> inr NoOutcome -> S (length (warnings ext)) = length consumed).
Proof.
  cbv zeta.
  destruct (request_summary a r w)
    as (ext & consumed & n & Htr & Hout & Hn1 & _ & _ & Hlen & Hatt & Hwarn & _
        & _ & _ & _ & _ & _ & _).
  pose proof (Forall2_length _ _ _ Hwarn) as Hl.
  rewrite length_take in Hl.
  assert (Hw : length (warnings ext) = pred n)
    by (destruct Hatt as [(H & _) | (H & _)]; lia).
  exists ext, consumed. repeat split; try assumption.
  - rewrite Hw. exact Hwarn.
  - intros Hno. destruct Hatt as [(H & _) | (_ & H & _)]; [lia | contradiction].
Qed.

(** Along a run the access token is cleared once for each 401 response
    among the outcomes consumed, and at no other time; the authorizer keeps
    its refresh capability. *)
Theorem request_token_cleared_per_401 (a : request_args) (r : Z) (w : world) :
  let w' := snd (request_with_retries a (FiniteRetryStrategy r) w) in
  exists ext consumed,
    w_trace w' = w_trace w ++ ext /\
    w_outs w = consumed ++ w_outs w' /\
    clears ext = length (filter is_401 consumed) /\
    has_refresh (w_auth w') = has_refresh (w_auth w).
Proof.
  cbv zeta.
  destruct (request_summary a r w)
    as (ext & consumed & n & Htr & Hout & _ & _ & _ & _ & _ & _ & Hcl & Hauth & _).
  exists ext, consumed. repeat split; assumption.
Qed.

(** With draws of [random.random()] in [[0,1)], a run sleeps at most
    twice, never a negative time, for less than 6 seconds in total, and
    draws one random number per sleep. *)
Theorem request_sleeps_bounded (a : request_args) (r : Z) (w : world) :
  (forall i, 0 <= w_random w i < 1)%Q ->
  let w' := snd (request_with_retries a (FiniteRetryStrategy r) w) in
  exists ext,
    w_trace w' = w_trace w ++ ext /\
    (length (sleeps ext) <= 2)%nat /\
    Forall (fun s => 0 <= s)%Q (sleeps ext) /\
    (Qsum (sleeps ext) < 6)%Q /\
    w_rng w' = (w_rng w + length (sleeps ext))%nat.
Proof.
  intros HR. cbv zeta.
  destruct (request_summary a r w)
    as (ext & consumed & n & Htr & _ & _ & Hn & _ & _ & _ & _ & _ & _ & Hsl & _
        & Hrng & _).
  destruct (sleep_plan_bound (w_random w) HR n r (w_rng w) Hn) as (H1 & H2 & H3).
  exists ext. rewrite Hsl in *. repeat split; assumption.
Qed.

Lemma request_sleeps_bounded_witness :
  (forall i, 0 <= w_random (world0 refreshable
       [OResponse (resp_status 503); OResponse (resp_status 502);
        OResponse (resp_status 504)]) i < 1)%Q /\
  let w' := snd (request_with_retries args0 (FiniteRetryStrategy 3)
                   (world0 refreshable
                      [OResponse (resp_status 503); OResponse (resp_status 502);
                       OResponse (resp_status 504)])) in
  exists ext,
    w_trace w' = w_trace (world0 refreshable
                   [OResponse (resp_status 503); OResponse (resp_status 502);
                    OResponse (resp_status 504)]) ++ ext /\
    (length (sleeps ext) <= 2)%nat /\
    Forall (fun s => 0 <= s)%Q (sleeps ext) /\
    (Qsum (sleeps ext) < 6)%Q /\
    w_rng w' = (w_rng (world0 refreshable
                   [OResponse (resp_status 503); OResponse (resp_status 502);
                    OResponse (resp_status 504)]) + length (sleeps ext))%nat.
Proof.
  assert (HR : (forall i, 0 <= w_random (world0 refreshable
       [OResponse (resp_status 503); OResponse (resp_status 502);
        OResponse (resp_status 504)]) i < 1)%Q)
    by (intros i; cbn; lra).
  split; [exact HR |]. apply (request_sleeps_bounded args0 3 _ HR).
Defined.

(** [response.json()] is invoked at most once per run, however many
    attempts are made. *)
Theorem request_decodes_at_most_once (a : request_args) (r : Z) (w : world) :
  exists ext,
    w_trace (snd (request_with_retries a (FiniteRetryStrategy r) w))
    = w_trace w ++ ext /\ (decodes ext <= 1)%nat.
Proof.
  destruct (request_summary a r w)
    as (ext & _ & _ & Htr & _ & _ & _ & _ & _ & _ & _ & _ & _ & _ & _ & _ & Hdec & _).
  exists ext. split; assumption.
Qed.

(** [session(x)] (that is, [Session(x)]) raises [InvalidInvocation] with
    the message ["invalid Authorizer: " + str(x)] and changes nothing when [x]
    is not an authorizer; otherwise it installs [x], and each [request] on the
    new session consumes the retry state 3 first, with no sleep before the
    first attempt, makes at most 3 attempts and (draws in [[0,1)]) sleeps at
    most twice, less than 6 seconds in total. *)
Theorem Session_request_schedule (urljoin : string -> string -> string)
    (oauth_url : string) (x : authorizer_arg) (w : world)
    (method path : string) (data : data_arg) (files json : pyval)
    (params : option loc) :
  (forall i, 0 <= w_random w i < 1)%Q ->
  match session_fn x w with
  | (inr err, w1) =>
      w1 = w /\
      exists s, x = NotAnAuthorizer s /\
                err = InvalidInvocation ("invalid Authorizer: " ++ s)%string
  | (inl self, w1) =>
      (exists A, x = AnAuthorizer A /\ w_auth w1 = A) /\
      let w' := snd (request urljoin oauth_url self method path data files json
                       params w1) in
      exists ext,
        w_trace w' = w_trace w ++ EConsume 3 2 :: ext /\
        (attempts ext <= 3)%nat /\
        (length (sleeps ext) <= 2)%nat /\
        (Qsum (sleeps ext) < 6)%Q /\
        w_rng w' = (w_rng w + length (sleeps ext))%nat
  end.
Proof.
  intros HR. destruct x as [A | s]; cbn [session_fn Session_init].
  2: { split; [reflexivity |]. exists s. split; reflexivity. }
  split; [exists A; split; reflexivity |]. cbv zeta.
  set (w1 := World A (w_random w) (w_rng w) (w_outs w) (w_heap w) (w_trace w)).
  destruct (request_prepare_world urljoin oauth_url method path data files json
              params w1) as (a & h1 & Hp).
  unfold request. unfold_M. rewrite Hp. cbn [session_init _retry_strategy retries].
  set (w2 := World (w_auth w1) (w_random w1) (w_rng w1) (w_outs w1) h1 (w_trace w1)).
  destruct (run_summary a (Z.to_nat 3) 3 w2 ltac:(lia))
    as (ext & consumed & n & Htr & _ & _ & Hn & Hcons & _ & Hatt & _ & _ & _ & Hsl
        & _ & Hrng & _).
  destruct (run_first a (Z.to_nat 3) 3 w2 ltac:(lia)) as (ext1 & Htr1).
  rewrite Htr in Htr1. apply app_inv_head in Htr1.
  change (sleep_events 3 (w_random w2 (w_rng w2))) with [EConsume 3 2] in Htr1.
  cbn [app] in Htr1. subst ext.
  pose proof (HR) as HR'.
  destruct (sleep_plan_bound (w_random w) HR n 3 (w_rng w) Hn) as (H1 & _ & H3).
  exists ext1. cbn [sleeps] in *. rewrite Hsl in *.
  repeat split.
  - rewrite Htr. reflexivity.
  - rewrite attempts_cons in Hatt. cbn [is_attempt] in Hatt.
    cbn [consumptions] in Hcons.
    destruct Hatt as [(H & _) | (H & _)]; destruct Hn; cbn in *; lia.
  - exact H1.
  - exact H3.
  - exact Hrng.
Qed.

Lemma Session_request_schedule_witness :
  (forall i, 0 <= w_random world_ba i < 1)%Q /\
  match session_fn (AnAuthorizer refreshable) world_ba with
  | (inr err, w1) =>
      w1 = world_ba /\
      exists s, AnAuthorizer refreshable = NotAnAuthorizer s /\
                err = InvalidInvocation ("invalid Authorizer: " ++ s)%string
  | (inl self, w1) =>
      (exists A, AnAuthorizer refreshable = AnAuthorizer A /\ w_auth w1 = A) /\
      let w' := snd (request (fun base p => base ++ p)%string
                       "https://oauth.reddit.com" self "POST" "/api/comment"
                       (DataDict 1) PNone PNone None w1) in
      exists ext,
        w_trace w' = w_trace world_ba ++ EConsume 3 2 :: ext /\
        (attempts ext <= 3)%nat /\
        (length (sleeps ext) <= 2)%nat /\
        (Qsum (sleeps ext) < 6)%Q /\
        w_rng w' = (w_rng world_ba + length (sleeps ext))%nat
  end.
Proof.
  assert (HR : (forall i, 0 <= w_random world_ba i < 1)%Q) by (intros i; cbn; lra).
  split; [exact HR |].
  apply (Session_request_schedule (fun base p => base ++ p)%string
           "https://oauth.reddit.com" (AnAuthorizer refreshable) world_ba
           "POST" "/api/comment" (DataDict 1) PNone PNone None HR).
Defined.

(** When an attempt is answered with 401, the authorizer has [refresh],
    retries remain after this attempt, and [is_valid()] rejects a missing
    token, the request is retried with the token cleared, and the header
    callback of the retried attempt, run after its sleep, refreshes the
    authorizer: the retried request is sent with the refreshed token. *)
Theorem header_after_unauthorized (a : request_args) (r : Z) (w : world)
    (resp : response) (rest : list outcome) :
  w_outs w = OResponse resp :: rest ->
  status_code resp = 401 ->
  has_refresh (w_auth w) = true ->
  1 < r ->
  (forall tr, is_valid (w_auth w) None tr = false) ->
  exists w2,
    request_with_retries a (FiniteRetryStrategy r) w
    = request_with_retries a (FiniteRetryStrategy (r - 1)) w2 /\
    access_token (w_auth w2) = None /\
    let w3 := snd (sleep (FiniteRetryStrategy (r - 1)) w2) in
    fst (_set_header_callback w3)
    = inl (<["Authorization" :=
               ("bearer " ++ token_str (refresh (w_auth w) (w_trace w3)))%string]> ∅).
Proof.
  intros Hw Hs Hr Hlt Hv.
  rewrite (request_step_response a r w resp rest Hw). cbv zeta.
  rewrite Hs, Hr. cbn [Z.eqb Pos.eqb andb orb].
  replace (r - 1 >? 0) with true by (symmetry; apply Z.gtb_lt; lia).
  cbn [andb].
  eexists. split; [reflexivity |].
  unfold log_event, after_response. rewrite Hs. cbn [Z.eqb Pos.eqb].
  unfold cleared. cbn [w_auth access_token set_token].
  split; [reflexivity |].
  rewrite sleep_unfold, header_unfold. cbn [fst snd w_auth w_trace].
  unfold after_attempt. cbn [w_auth].
  unfold callback_auth at 1. cbn [set_token is_valid has_refresh access_token].
  rewrite is_valid_callback, has_refresh_callback, Hv, Hr. cbn [negb andb].
  unfold bearer_header, set_token. cbn [access_token refresh].
  rewrite refresh_callback. reflexivity.
Qed.

Lemma header_after_unauthorized_witness :
  w_outs (world0 refreshable [OResponse (resp_status 401); OResponse (resp_status 200)])
  = OResponse (resp_status 401) :: [OResponse (resp_status 200)] /\
  status_code (resp_status 401) = 401 /\
  has_refresh (w_auth (world0 refreshable
    [OResponse (resp_status 401); OResponse (resp_status 200)])) = true /\
  1 < 3 /\
  (forall tr, is_valid (w_auth (world0 refreshable
     [OResponse (resp_status 401); OResponse (resp_status 200)])) None tr = false) /\
  exists w2,
    request_with_retries args0 (FiniteRetryStrategy 3)
      (world0 refreshable [OResponse (resp_status 401); OResponse (resp_status 200)])
    = request_with_retries args0 (FiniteRetryStrategy (3 - 1)) w2 /\
    access_token (w_auth w2) = None /\
    let w3 := snd (sleep (FiniteRetryStrategy (3 - 1)) w2) in
    fst (_set_header_callback w3)
    = inl (<["Authorization" :=
               ("bearer " ++ token_str (refresh (w_auth (world0 refreshable
                  [OResponse (resp_status 401); OResponse (resp_status 200)]))
                  (w_trace w3)))%string]> ∅).
Proof.
  assert (Hv : forall tr, is_valid (w_auth (world0 refreshable
     [OResponse (resp_status 401); OResponse (resp_status 200)])) None tr = false)
    by (intros tr; reflexivity).
  split; [reflexivity |]. split; [reflexivity |]. split; [reflexivity |].
  split; [lia |]. split; [exact Hv |].
  apply (header_after_unauthorized args0 3 _ (resp_status 401)
           [OResponse (resp_status 200)]); [reflexivity | reflexivity | reflexivity | lia | exact Hv].
Defined.

(** [Session.request] sends as query parameters a newly allocated
    dictionary, never an object that existed before the call, even when the
    caller passed none or an empty one; it holds the caller's entries and
    [raw_json = 1]. Data that is not a dictionary is sent as given, and the
    method, files and JSON body are passed on unchanged, the URL being
    [urljoin(oauth_url, path)]. *)
Theorem request_prepare_fresh_params (urljoin : string -> string -> string)
    (oauth_url method path : string) (data : data_arg) (files json : pyval)
    (params : option loc) (w : world) :
  exists a w1,
    request_prepare urljoin oauth_url method path data files json params w
    = (inl a, w1) /\
    (ra_params a ∉ dom (w_heap w)) /\
    w_heap w1 !! ra_params a
    = Some (<["raw_json" := PInt 1]> (caller_dict (w_heap w) params)) /\
    (forall v, data = DataOther v -> ra_data a = BRaw v) /\
    ra_method a = method /\ ra_url a = urljoin oauth_url path /\
    ra_files a = files /\ ra_json a = json.
Proof.
  destruct w as [A R N O h T]. cbn [w_heap].
  destruct (copy_params_spec params A R N O h T) as (lp & h1 & Hc & Hlp & Hh1 & _).
  unfold request_prepare. unfold_M. rewrite Hc.
  cbn [w_heap w_auth w_random w_rng w_outs w_trace]. rewrite Hh1. cbn [default].
  set (h2 := <[lp := <["raw_json" := PInt 1]> (caller_dict h params)]> h1).
  assert (Hin : lp ∈ dom h2)
    by (apply elem_of_dom; unfold h2; rewrite lookup_insert_eq; eexists; reflexivity).
  destruct data as [l | v]; unfold prepare_data, deepcopy; unfold_M; cbn.
  - eexists _, _. split; [reflexivity |]. split; [exact Hlp |].
    pose proof (fresh_not_in h2 lp Hin) as Hne.
    cbn [w_heap ra_params]. fold h2.
    rewrite insert_insert_eq, lookup_insert_ne by congruence.
    split; [unfold h2; apply lookup_insert_eq |].
    split; [discriminate |]. repeat split.
  - eexists _, _. split; [reflexivity |]. split; [exact Hlp |].
    split; [unfold h2; apply lookup_insert_eq |].
    split; [intros v' [= ->]; reflexivity |]. repeat split.
Qed.

Lemma handle_not_attribute_error (resp : response) (w : world) :
  fst (handle_response (Some resp) w) <> inr EAttributeError.
Proof.
  unfold handle_response.
  destruct (STATUS_EXCEPTIONS (status_code resp)); [discriminate |].
  destruct (status_code resp =? 204); [discriminate |].
  destruct (negb _); [discriminate |].
  destruct (decide _); [discriminate |].
  unfold_M. cbn. destruct (json_body resp); discriminate.
Qed.

(** The pipeline never raises [AttributeError]: [response.status_code] is
    never read from a missing response, in [_do_retry] or after the retry
    test. *)
Theorem request_no_attribute_error (a : request_args) (fuel : nat) :
  forall (r : Z) (w : world),
  fst (_request_with_retries fuel a (FiniteRetryStrategy r) w) <> inr EAttributeError.
Proof.
  induction fuel as [| fuel IH]; intros r w;
    destruct (w_outs w) as [| o rest] eqn:Hw;
    try (rewrite (step_nil _ a r w Hw); discriminate);
    destruct o as [resp | e | n];
    try (rewrite (step_other _ a r w n rest Hw); discriminate).
  - rewrite (step_response _ a r w resp rest Hw). cbv zeta.
    destruct (_ && _); [discriminate | apply handle_not_attribute_error].
  - rewrite (step_exn _ a r w e rest Hw). destruct (_ && _); discriminate.
  - rewrite (step_response _ a r w resp rest Hw). cbv zeta.
    destruct (_ && _); [apply IH | apply handle_not_attribute_error].
  - rewrite (step_exn _ a r w e rest Hw). destruct (_ && _); [apply IH | discriminate].
Qed.

Lemma sleep_plan_growing (R : nat -> Q) :
  (forall j, 0 <= R j < 1)%Q ->
  forall n r i, (n <= Z.to_nat r \/ n = 1)%nat ->
  forall s1 s2 l, sleep_plan r n R i = s1 :: s2 :: l -> (s1 < 2 <= s2)%Q.
Proof.
  intros HR n. induction n as [| n IH]; intros r i Hn s1 s2 l E; [discriminate |].
  cbn [sleep_plan] in E.
  destruct (Z.ltb_spec r 3) as [Hr | Hr].
  - destruct (Z.eqb_spec r 2) as [-> | H2].
    + assert (Hn' : (n <= 1)%nat) by (cbn in Hn; lia).
      destruct n as [| [| n]]; [| | lia]; cbn in E; change (2 - 1) with 1 in E;
        cbn in E; [discriminate |].
      injection E as <- <- _.
      pose proof (HR i); pose proof (HR (S i)). unfold inject_Z. lra.
    + assert (Hn' : n = O) by lia. subst n. discriminate.
  - apply (IH (r - 1) i) with (l := l); [lia | exact E].
Qed.

(** With draws in [[0,1)], the back-off grows: when a run sleeps twice, the
    first sleep is shorter than 2 seconds and the second at least 2 seconds. *)
Theorem request_backoff_grows (a : request_args) (r : Z) (w : world) :
  (forall i, 0 <= w_random w i < 1)%Q ->
  exists ext,
    w_trace (snd (request_with_retries a (FiniteRetryStrategy r) w))
    = w_trace w ++ ext /\
    forall s1 s2 l, sleeps ext = s1 :: s2 :: l -> (s1 < 2 <= s2)%Q.
Proof.
  intros HR.
  destruct (request_summary a r w)
    as (ext & consumed & n & Htr & _ & _ & Hn & _ & _ & _ & _ & _ & _ & Hsl & _).
  exists ext. split; [exact Htr |]. rewrite Hsl.
  apply (sleep_plan_growing (w_random w) HR n r (w_rng w) Hn).
Qed.

Lemma request_backoff_grows_witness :
  (forall i, 0 <= w_random (world0 refreshable
       [OResponse (resp_status 503); OResponse (resp_status 502)]) i < 1)%Q /\
  exists ext,
    w_trace (snd (request_with_retries args0 (FiniteRetryStrategy 2)
                    (world0 refreshable
                       [OResponse (resp_status 503); OResponse (resp_status 502)])))
    = w_trace (world0 refreshable
                 [OResponse (resp_status 503); OResponse (resp_status 502)]) ++ ext /\
    forall s1 s2 l, sleeps ext = s1 :: s2 :: l -> (s1 < 2 <= s2)%Q.
Proof.
  assert (HR : (forall i, 0 <= w_random (world0 refreshable
       [OResponse (resp_status 503); OResponse (resp_status 502)]) i < 1)%Q)
    by (intros i; cbn; lra).
  split; [exact HR |]. apply (request_backoff_grows args0 2 _ HR).
Defined.
